(** * Microsoft_Foundry_Codes: the throttled, retrying streaming client
      and the language routers

    A shallow embedding of
    - [Legal_Agent_Interface.py]: [is_rate_limit_error], [backoff_sleep],
      [throttle_guard] and the generator [stream_agent]; then
      [get_agent_by_name], [extract_text], [truncate_text] and the page
      itself (sidebar upload, buttons, chat input);
    - [KenAgent_Draft_workflow.py] and
      [KenAgent_Draft_workflow_Translation.py]: [detect_language]; then
      [route], the chat loop [main] and [translate_text].

    Conventions.  A Python [str] is the list of its Unicode code points.
    Wall-clock instants and durations are rationals, in seconds: the
    arithmetic of the program on binary floating point numbers is read as
    exact arithmetic.  The session state, the clock and the record of the
    effects performed so far make up an explicit [world] that every
    statement of the program transforms. *)

From Stdlib Require Import List Bool Arith NArith ZArith QArith Qminmax.
From Stdlib Require Import String Ascii Lia Lqa.
Import ListNotations.

(** ** Python values used by the three scripts *)

Module Py.

(** A [str]: its code points, in order. *)
Definition char := N.
Definition str := list char.

(** A literal of the source text (all of them are ASCII). *)
Definition lit (s : string) : str :=
  List.map N_of_ascii (list_ascii_of_string s).

Definition char_eqb (a b : char) : bool := N.eqb a b.

Fixpoint str_eqb (a b : str) : bool :=
  match a, b with
  | [], [] => true
  | x :: a', y :: b' => char_eqb x y && str_eqb a' b'
  | _, _ => false
  end.

(** [s.startswith(pat)]. *)
Fixpoint startswith (pat s : str) : bool :=
  match pat, s with
  | [], _ => true
  | _ :: _, [] => false
  | p :: pat', c :: s' => char_eqb p c && startswith pat' s'
  end.

(** [pat in s] on two strings: [pat] occurs as a contiguous run of [s]. *)
Fixpoint contains (pat s : str) : bool :=
  startswith pat s ||
  match s with
  | [] => false
  | _ :: s' => contains pat s'
  end.

(** [str.lower] on one code point.  The letters A-Z move to a-z; every
    other code point is left in place.  The tests of the program look for
    the letters r, a, t and e only, and no code point outside A-Z
    lowercases to a string holding one of them. *)
Definition lower_char (c : char) : char :=
  if (65 <=? c)%N && (c <=? 90)%N then (c + 32)%N else c.

Definition lower (s : str) : str := List.map lower_char s.

(** [pat] occurs in [s]. *)
Definition occurs (pat s : str) : Prop :=
  exists pre post, s = pre ++ pat ++ post.

(** The same letter, up to the case of A-Z. *)
Definition same_letter (a b : char) : Prop :=
  a = b
  \/ ((65 <= a <= 90)%N /\ (a + 32)%N = b)
  \/ ((65 <= b <= 90)%N /\ (b + 32)%N = a).

(** [pat] occurs in [s], the case of the letters being ignored. *)
Definition occurs_ignoring_case (pat s : str) : Prop :=
  exists pre mid post, s = pre ++ mid ++ post /\ Forall2 same_letter mid pat.

(** [a <= c <= b] on one-character strings: comparison of code points. *)
Definition between (a b c : char) : bool := (a <=? c)%N && (c <=? b)%N.

(** [any(p(c) for c in text)]. *)
Definition any (p : char -> bool) (text : str) : bool := existsb p text.

(** The text holds a character of the Arabic block U+0600..U+06FF. *)
Definition has_arabic (text : str) : Prop :=
  exists c, In c text /\ (0x0600 <= c <= 0x06FF)%N.

(** The line feed of the source's ["\n"]. *)
Definition newline : char := 10%N.

(** [len(s)] *)
Definition len {A : Type} (s : list A) : Z := Z.of_nat (List.length s).

(** [s[:n]], on a string or a list: the first [n] items, or all but the
    last [-n] when [n] is negative. *)
Definition slice_to {A : Type} (n : Z) (s : list A) : list A :=
  if (0 <=? n)%Z then firstn (Z.to_nat n) s
  else firstn (Z.to_nat (len s + n)) s.

(** [s.endswith(suffix)] *)
Definition endswith (suffix s : str) : bool :=
  startswith (rev suffix) (rev s).

(** [sep.join(parts)] *)
Fixpoint join (sep : str) (parts : list str) : str :=
  match parts with
  | [] => []
  | [part] => part
  | part :: rest => part ++ sep ++ join sep rest
  end.

(** [s] ends with [suffix], the case of the letters being ignored. *)
Definition ends_ignoring_case (suffix s : str) : Prop :=
  exists pre mid, s = pre ++ mid /\ Forall2 same_letter mid suffix.

(** The truth value of a string: it is not empty. *)
Definition nonempty (s : str) : bool :=
  match s with [] => false | _ :: _ => true end.

(** What a call that can raise gives back. *)
Inductive result (E A : Type) : Type :=
| Ok (a : A)
| Raise (e : E).

Arguments Ok {E A} a.
Arguments Raise {E A} e.

End Py.

(** ** KenAgent_Draft_workflow.py *)

Module KenAgent_Draft_workflow.

(** [return "arabic" if any(U+0600 <= c <= U+06FF for c in text)
    else "english"] *)
Definition detect_language (text : Py.str) : Py.str :=
  if Py.any (Py.between 0x0600%N 0x06FF%N) text
  then Py.lit "arabic" else Py.lit "english".

(** The three agents of the script. *)
Inductive agent := english_agent | arabic_agent | translation_agent.

(** How the chat loop ends: at [break], at the [EOFError] that [input]
    raises when the input is over, or at an exception of [route]. *)
Inductive ending (error : Type) :=
| Exited
| EndOfInput
| Crashed (e : error).

Arguments Exited {error}.
Arguments EndOfInput {error}.
Arguments Crashed {error} e.

Section Orchestrator.

(** The history of the chat ([ChatHistoryAgentThread]), the answers of the
    agents and the exceptions of the service. *)
Variables thread response error : Type.

(** [await agent.get_response(query, thread=thread)]: the answer or the
    exception raised, and the thread as the call leaves it. *)
Variable get_response :
  agent -> Py.str -> thread -> Py.result error response * thread.

Definition route (query : Py.str) (t : thread)
  : Py.result error response * thread :=
  let lang := detect_language query in
  if Py.str_eqb lang (Py.lit "arabic")
  then get_response arabic_agent query t
  else if Py.str_eqb lang (Py.lit "english")
  then get_response english_agent query t
  else get_response translation_agent query t.

(** [while True: q = input("Query: "); if q == "exit": break;
    r = await route(q, thread); print("\n", r)], on the lines of the
    standard input: the answers printed, the ending and the thread. *)
Fixpoint main (stdin : list Py.str) (t : thread)
  : list response * ending error * thread :=
  match stdin with
  | [] => ([], EndOfInput, t)
  | q :: rest =>
      if Py.str_eqb q (Py.lit "exit") then ([], Exited, t)
      else
        match route q t with
        | (Py.Raise e, t') => ([], Crashed e, t')
        | (Py.Ok r, t') =>
            let '(printed, c, t'') := main rest t' in
            (r :: printed, c, t'')
        end
  end.

End Orchestrator.

End KenAgent_Draft_workflow.

(** ** KenAgent_Draft_workflow_Translation.py *)

Module KenAgent_Draft_workflow_Translation.

(** [return "ar" if any(U+0600 <= c <= U+06FF for c in text)
    else "en"] *)
Definition detect_language (text : Py.str) : Py.str :=
  if Py.any (Py.between 0x0600%N 0x06FF%N) text
  then Py.lit "ar" else Py.lit "en".

Definition KB_LANGUAGE : Py.str := Py.lit "arabic".

(** A value decoded from JSON by [r.json()]; a dict is the list of its
    items. *)
#[warnings="-register-all"] Inductive value :=
| VNone
| VBool (b : bool)
| VInt (n : Z)
| VFloat (x : Q)
| VStr (s : Py.str)
| VList (items : list value)
| VDict (items : list (Py.str * value)).

(** The exceptions of [translate_text]. *)
Inductive error :=
| RequestException (msg : Py.str)   (* requests.post fails *)
| HTTPError (status : Z)            (* r.raise_for_status() *)
| JSONDecodeError                   (* r.json() *)
| IndexError
| KeyError (key : value)
| TypeError
| AgentError (msg : Py.str)         (* raised by an agent *)
| EOFError.                         (* input() at the end of the input *)

(** [d[key]] on the items of a dict. *)
Fixpoint lookup (key : Py.str) (items : list (Py.str * value)) : option value :=
  match items with
  | [] => None
  | (k, v) :: rest => if Py.str_eqb k key then Some v else lookup key rest
  end.

(** [v[0]] *)
Definition first_item (v : value) : Py.result error value :=
  match v with
  | VList (x :: _) => Py.Ok x
  | VList [] => Py.Raise IndexError
  | VStr (c :: _) => Py.Ok (VStr [c])
  | VStr [] => Py.Raise IndexError
  | VDict _ => Py.Raise (KeyError (VInt 0))
  | _ => Py.Raise TypeError
  end.

(** [v[key]], for a key that is a string. *)
Definition item (key : Py.str) (v : value) : Py.result error value :=
  match v with
  | VDict items =>
      match lookup key items with
      | Some x => Py.Ok x
      | None => Py.Raise (KeyError (VStr key))
      end
  | _ => Py.Raise TypeError
  end.

(** The one element of the [body] of a request. *)
Record translation_request := TranslationRequest {
  Text : Py.str;
  language : Py.str;
  target_language : Py.str;
  deploymentName : Py.str
}.

(** What [requests.post] does: it raises, or it gives a response with its
    status and what [r.json()] makes of its body. *)
Inductive posted :=
| NoResponse (e : error)
| Response (status : Z) (json : Py.result error value).

Section Translation.

(** [requests.post(ENDPOINT, params=..., headers=..., json=body,
    timeout=30)] *)
Variable post : translation_request -> posted.
(** [os.getenv("TRANS_MODEL_DEPLOYMENT")] *)
Variable MODEL_DEPLOYMENT : Py.str.

Definition translate_text (text from_lang to_lang model_deployment : Py.str)
  : Py.result error value :=
  match post (TranslationRequest text from_lang to_lang model_deployment) with
  | NoResponse e => Py.Raise e
  | Response status json =>
      if (400 <=? status)%Z && (status <? 600)%Z
      then Py.Raise (HTTPError status)
      else
        match json with
        | Py.Raise e => Py.Raise e
        | Py.Ok data =>
            match first_item data with
            | Py.Raise e => Py.Raise e
            | Py.Ok d0 =>
                match item (Py.lit "translations") d0 with
                | Py.Raise e => Py.Raise e
                | Py.Ok translations =>
                    match first_item translations with
                    | Py.Raise e => Py.Raise e
                    | Py.Ok t0 => item (Py.lit "text") t0
                    end
                end
            end
        end
  end.

Definition translate (text from_lang to_lang : Py.str)
  : Py.result error value :=
  translate_text text from_lang to_lang MODEL_DEPLOYMENT.

End Translation.

(** The two agents of the script. *)
Inductive agent := arabic_agent | english_agent.

Section Router.

(** The state of the services and of the chat thread, and the answers of
    the agents. *)
Variables world response : Type.

(** [kernel.plugins["translation"].translate(text, from_lang, to_lang)]:
    what it returns or raises, and the world as it leaves it. *)
Variable plugin_translate :
  Py.str -> Py.str -> Py.str -> world -> Py.result error value * world.
(** [await agent.get_response(working_query, thread=thread)] *)
Variable get_response :
  agent -> value -> world -> Py.result error response * world.
(** [str(answer)] *)
Variable str : response -> Py.str.

Definition route (query : Py.str) (w : world)
  : Py.result error value * world :=
  let q_lang := detect_language query in
  let kb_lang :=
    if Py.str_eqb KB_LANGUAGE (Py.lit "arabic")
    then Py.lit "ar" else Py.lit "en" in
  match
    (if negb (Py.str_eqb q_lang kb_lang)
     then plugin_translate query q_lang kb_lang w
     else (Py.Ok (VStr query), w))
  with
  | (Py.Raise e, w) => (Py.Raise e, w)
  | (Py.Ok working_query, w) =>
      match
        (if Py.str_eqb kb_lang (Py.lit "ar")
         then get_response arabic_agent working_query w
         else get_response english_agent working_query w)
      with
      | (Py.Raise e, w) => (Py.Raise e, w)
      | (Py.Ok answer, w) =>
          let answer_text := str answer in
          if negb (Py.str_eqb q_lang kb_lang)
          then plugin_translate answer_text kb_lang q_lang w
          else (Py.Ok (VStr answer_text), w)
      end
  end.

(** The chat loop, as in the other script: the answers printed, the
    ending ([None]: at [break]; an error: the exception that ends the
    loop, [EOFError] being the one of [input]) and the world. *)
Fixpoint main (stdin : list Py.str) (w : world)
  : list value * option error * world :=
  match stdin with
  | [] => ([], Some EOFError, w)
  | q :: rest =>
      if Py.str_eqb q (Py.lit "exit") then ([], None, w)
      else
        match route q w with
        | (Py.Raise e, w') => ([], Some e, w')
        | (Py.Ok r, w') =>
            let '(printed, c, w'') := main rest w' in
            (r :: printed, c, w'')
        end
  end.

End Router.

End KenAgent_Draft_workflow_Translation.

(** ** Legal_Agent_Interface.py *)

Module Legal_Agent_Interface.

Definition MIN_SECONDS_BETWEEN_REQUESTS : Q := 2.5.
Definition MAX_RETRIES_429 : nat := 6.

(** *** Exceptions, events and the remote service *)

(** An exception raised by the SDK, with its text [str(e)].  All of them
    derive from [Exception], so that [except Exception] catches them. *)
Inductive exn := Exception (msg : Py.str).

Definition str (e : exn) : Py.str := let 'Exception msg := e in msg.

(** [return "429" in str(e) or "rate" in str(e).lower()] *)
Definition is_rate_limit_error (e : exn) : bool :=
  Py.contains (Py.lit "429") (str e)
  || Py.contains (Py.lit "rate") (Py.lower (str e)).

(** One event of a response stream: [getattr(event, "type", None)] and,
    for the events that carry one, the text fragment [event.delta]. *)
Record event := Event { type : option Py.str; delta : Py.str }.

(** [getattr(event, "type", None) == "response.output_text.delta"] *)
Definition is_text_delta (ev : event) : bool :=
  match type ev with
  | Some t => Py.str_eqb t (Py.lit "response.output_text.delta")
  | None => false
  end.

(** What one call of [openai_client.responses.create(..., stream=True)]
    does, after [latency] seconds: it raises, or it hands back a stream
    that delivers [events] and then ends, normally ([None]) or by raising
    in the middle of the iteration. *)
Inductive outcome :=
| Rejects (latency : Q) (e : exn)
| Streams (latency : Q) (events : list event) (ending : option exn).

(** *** The world: session state, clock and effects *)

Inductive effect :=
| Warning (msg : Py.str)                       (* st.warning(msg) *)
| Sleep (secs : Q)                             (* time.sleep(secs) *)
| Request (issued : Q) (attempt : nat)
          (conversation input agent : Py.str). (* responses.create(...) *)

Record world := World {
  in_flight : option bool;     (* st.session_state.get("in_flight") *)
  last_request : option Q;     (* st.session_state.get("last_request") *)
  clock : Q;                   (* datetime.utcnow(), in seconds *)
  draws : nat;                 (* calls of random.random() so far *)
  log : list effect            (* effects so far, the newest first *)
}.

(** Truth value of [st.session_state.get("in_flight")]. *)
Definition truthy (v : option bool) : bool :=
  match v with Some b => b | None => false end.

Definition set_in_flight (b : bool) (w : world) : world :=
  World (Some b) (last_request w) (clock w) (draws w) (log w).

Definition set_last_request (t : Q) (w : world) : world :=
  World (in_flight w) (Some t) (clock w) (draws w) (log w).

Definition emit (e : effect) (w : world) : world :=
  World (in_flight w) (last_request w) (clock w) (draws w) (e :: log w).

(** Time passing without the program doing anything. *)
Definition elapse (secs : Q) (w : world) : world :=
  World (in_flight w) (last_request w) (clock w + secs) (draws w) (log w).

(** [time.sleep(secs)] *)
Definition sleep (secs : Q) (w : world) : world :=
  elapse secs (emit (Sleep secs) w).

Definition draw (w : world) : world :=
  World (in_flight w) (last_request w) (clock w) (S (draws w)) (log w).

(** [st.warning(msg)] *)
Definition warning (msg : Py.str) (w : world) : world :=
  emit (Warning msg) w.

Definition is_request (e : effect) : bool :=
  match e with Request _ _ _ _ _ => true | _ => false end.

(** Number of network attempts made so far. *)
Definition attempts (w : world) : nat :=
  List.length (List.filter is_request (log w)).

(** [a < b] on two numbers. *)
Definition Qltb (a b : Q) : bool := negb (Qle_bool b a).

(** *** Rate limit helpers *)

(** [delay = min(20, 0.8 * (2 ** attempt))] and
    [delay *= (0.75 + random.random() * 0.5)]: the argument of
    [time.sleep] in [backoff_sleep], [r] being the value of
    [random.random()], for the attempts whose power of two is a float. *)
Definition backoff_delay (attempt : nat) (r : Q) : Q :=
  let delay := Qmin 20 (0.8 * inject_Z (2 ^ Z.of_nat attempt)) in
  delay * (0.75 + r * 0.5).

(** [now = utcnow(); last = session_state.get("last_request")];
    [if last: diff = now - last; if diff < MIN: sleep(MIN - diff)];
    [session_state["last_request"] = utcnow()] *)
Definition throttle_guard (w : world) : world :=
  let now := clock w in
  let w :=
    match last_request w with
    | Some last =>
        let diff := now - last in
        if Qltb diff MIN_SECONDS_BETWEEN_REQUESTS
        then sleep (MIN_SECONDS_BETWEEN_REQUESTS - diff) w
        else w
    | None => w
    end in
  set_last_request (clock w) w.

(** *** The generator *)

Inductive completion :=
| Returned                 (* the generator is exhausted: StopIteration *)
| Raised (e : exn).        (* [e] reaches the caller of [next] *)

(** A run of a generator body up to its end: it stops, or it is suspended
    at a [yield] in world [w], from where the caller either asks for the
    next fragment ([resume], in the world of that moment) or closes the
    generator ([close]: GeneratorExit is raised at the [yield]). *)
Inductive run :=
| Stop (c : completion) (w : world)
| Yield (fragment : Py.str) (w : world)
        (resume : world -> run) (close : world -> world).

(** The [finally] clause: [st.session_state.in_flight = False]. *)
Definition release (w : world) : world := set_in_flight false w.

Section Client.

(** The remote service: the outcome of the [i]-th network attempt of
    the session. *)
Variable responses_create : nat -> outcome.
(** The values of [random.random()], in the order they are drawn. *)
Variable random : nat -> Q.

(** The second and third lines of [backoff_sleep]: one random draw, one
    sleep. *)
Definition backoff_wait (attempt : nat) (w : world) : world :=
  let r := random (draws w) in
  sleep (backoff_delay attempt r) (draw w).

(** [backoff_sleep(attempt)].  The product [0.8 * (2 ** attempt)] turns
    the integer [2 ** attempt] into a float: from [2 ** 1024] on this
    raises [OverflowError], before anything is drawn or slept. *)
Definition backoff_sleep (attempt : nat) (w : world) : Py.result exn world :=
  if (attempt <? 1024)%nat
  then Py.Ok (backoff_wait attempt w)
  else Py.Raise (Exception (Py.lit "int too large to convert to float")).

Section Call.

Variables agent_name conv_id text : Py.str.

(** The [except Exception as e] clause of attempt [attempt]; [retry]
    is the rest of the [for] loop.  An exception of [backoff_sleep] leaves
    the clause, and the call, through the [finally]. *)
Definition on_exception (retry : world -> run) (attempt : nat)
           (e : exn) (w : world) : run :=
  if is_rate_limit_error e && (attempt <? MAX_RETRIES_429)%nat
  then
    match backoff_sleep attempt w with
    | Py.Ok w' => retry w'
    | Py.Raise overflow => Stop (Raised overflow) (release w)
    end
  else Stop (Raised e) (release w).

(** [for event in stream: ...] followed by [return]. *)
Fixpoint for_event (retry : world -> run) (attempt : nat)
         (events : list event) (ending : option exn) (w : world) : run :=
  match events with
  | [] =>
      match ending with
      | None => Stop Returned (release w)
      | Some e => on_exception retry attempt e w
      end
  | ev :: rest =>
      if is_text_delta ev
      then Yield (delta ev) w
                 (for_event retry attempt rest ending) release
      else for_event retry attempt rest ending w
  end.

(** [for attempt in range: try: ... except ...], then the [finally]. *)
Fixpoint for_attempt (range : list nat) (w : world) : run :=
  match range with
  | [] => Stop Returned (release w)
  | attempt :: range' =>
      let answer := responses_create (attempts w) in
      let w := emit (Request (clock w) attempt conv_id text agent_name) w in
      match answer with
      | Rejects latency e =>
          on_exception (for_attempt range') attempt e (elapse latency w)
      | Streams latency events ending =>
          for_event (for_attempt range') attempt events ending
                    (elapse latency w)
      end
  end.

(** The body of the generator, started by the first [next] in
    world [w]. *)
Definition stream_agent (w : world) : run :=
  if truthy (in_flight w)
  then Stop Returned (warning (Py.lit "Request already running") w)
  else
    let w := set_in_flight true w in
    let w := throttle_guard w in
    for_attempt (seq 0 (MAX_RETRIES_429 + 1)) w.

End Call.

End Client.

(** *** Callers *)

(** [for chunk in gen: ...] to the end: the fragments received, how the
    generator ended and the world it leaves. *)
Fixpoint drain (r : run) : list Py.str * completion * world :=
  match r with
  | Stop c w => ([], c, w)
  | Yield fragment w resume _ =>
      let '(rest, c, w') := drain (resume w) in
      (fragment :: rest, c, w')
  end.

(** A caller that receives [n + 1] fragments at most and then closes the
    generator where it is suspended.  [None]: the generator was closed. *)
Fixpoint drain_until (n : nat) (r : run) {struct r}
  : list Py.str * option completion * world :=
  match r with
  | Stop c w => ([], Some c, w)
  | Yield fragment w resume close =>
      match n with
      | O => ([fragment], None, close w)
      | S n' =>
          let '(rest, c, w') := drain_until n' (resume w) in
          (fragment :: rest, c, w')
      end
  end.

(** *** Several generators in one session

    One script thread owns the session: generators run one at a time, and
    the thread can leave one suspended at a [yield] while it starts,
    resumes or closes another. *)

Inductive generator :=
| Created (agent_name conv_id text : Py.str)   (* body not started *)
| Suspended (resume : world -> run) (close : world -> world)
| Finished.

Inductive action :=
| Call (agent_name conv_id text : Py.str)   (* g = stream_agent(...) *)
| Next (i : nat)                            (* next(g_i) *)
| Close (i : nat)                           (* g_i.close() *)
| Idle (secs : Q).                          (* time passes *)

Definition settle (r : run) : generator * world :=
  match r with
  | Stop _ w => (Finished, w)
  | Yield _ w resume close => (Suspended resume close, w)
  end.

Fixpoint replace (i : nat) (g : generator) (pool : list generator)
  : list generator :=
  match pool, i with
  | [], _ => []
  | _ :: pool', O => g :: pool'
  | g0 :: pool', S i' => g0 :: replace i' g pool'
  end.

Section Session.

Variable responses_create : nat -> outcome.
Variable random : nat -> Q.

Definition next (g : generator) (w : world) : generator * world :=
  match g with
  | Created agent_name conv_id text =>
      settle (stream_agent responses_create random agent_name conv_id text w)
  | Suspended resume _ => settle (resume w)
  | Finished => (Finished, w)
  end.

Definition close (g : generator) (w : world) : generator * world :=
  match g with
  | Suspended _ close => (Finished, close w)
  | _ => (Finished, w)
  end.

Definition step (a : action) (s : list generator * world)
  : list generator * world :=
  let (pool, w) := s in
  match a with
  | Call agent_name conv_id text =>
      (pool ++ [Created agent_name conv_id text], w)
  | Next i =>
      match nth_error pool i with
      | Some g => let (g', w') := next g w in (replace i g' pool, w')
      | None => s
      end
  | Close i =>
      match nth_error pool i with
      | Some g => let (g', w') := close g w in (replace i g' pool, w')
      | None => s
      end
  | Idle secs => (pool, elapse secs w)
  end.

(** The actions of a script, the first one first. *)
Definition exec (script : list action) (s : list generator * world)
  : list generator * world :=
  fold_left (fun s a => step a s) script s.

End Session.

(** A generator holds the in-flight flag from the moment it has set it
    to the moment it ends: while it is suspended at a [yield]. *)
Definition holds (g : generator) : bool :=
  match g with Suspended _ _ => true | _ => false end.

Definition holders (pool : list generator) : nat :=
  List.length (List.filter holds pool).

(** *** Vocabulary of the statements *)

(** The payloads of the text-delta events of a stream, in arrival order. *)
Definition text_deltas (events : list event) : list Py.str :=
  List.map delta (List.filter is_text_delta events).

(** The error an attempt fails with, at the call or in mid-stream. *)
Definition failure (o : outcome) : option exn :=
  match o with
  | Rejects _ e => Some e
  | Streams _ _ ending => ending
  end.

(** The time an attempt takes to answer. *)
Definition duration (o : outcome) : Q :=
  match o with
  | Rejects latency _ => latency
  | Streams latency _ _ => latency
  end.

(** The fragments an attempt delivers before it ends. *)
Definition delivered (o : outcome) : list Py.str :=
  match o with
  | Rejects _ _ => []
  | Streams _ events _ => text_deltas events
  end.

(** The caller that drains the generator sees it fail: an exception
    reaches it. *)
Definition fails (r : run) : Prop :=
  exists fragments e w, drain r = (fragments, Raised e, w).

(** A run that keeps [I] at every [yield], as long as it is resumed in
    worlds where [I] holds, and ends, or is closed, in a world where [J]
    holds. *)
Inductive respects (I J : world -> Prop) : run -> Prop :=
| respects_Stop c w :
    J w -> respects I J (Stop c w)
| respects_Yield fragment w resume close :
    I w ->
    (forall w', I w' -> respects I J (resume w')) ->
    (forall w', I w' -> J (close w')) ->
    respects I J (Yield fragment w resume close).

(** The same, for a generator of the pool. *)
Definition sound (I J : world -> Prop) (g : generator) : Prop :=
  match g with
  | Suspended resume close =>
      (forall w, I w -> respects I J (resume w))
      /\ (forall w, I w -> J (close w))
  | _ => True
  end.

(** *** Instants of the requests in a log *)

(** Issue instants of all the requests, the newest first. *)
Fixpoint issues (l : list effect) : list Q :=
  match l with
  | [] => []
  | Request issued _ _ _ _ :: l' => issued :: issues l'
  | _ :: l' => issues l'
  end.

(** Issue instants of the requests that open a call (attempt 0), the
    newest first. *)
Fixpoint first_issues (l : list effect) : list Q :=
  match l with
  | [] => []
  | Request issued O _ _ _ :: l' => issued :: first_issues l'
  | _ :: l' => first_issues l'
  end.

(** [later] comes at least the minimum interval after [earlier]. *)
Definition apart (later earlier : Q) : Prop :=
  earlier + MIN_SECONDS_BETWEEN_REQUESTS <= later.

(** No two instants of a list (the newest first) are less than the
    minimum interval apart. *)
Definition paced (instants : list Q) : Prop :=
  ForallOrdPairs apart instants.

(** The in-flight flag is set, resp. cleared. *)
Definition held (w : world) : Prop := in_flight w = Some true.
Definition released (w : world) : Prop := in_flight w = Some false.

(** The flag and the pool agree: the flag is set while one generator holds
    it, and no second generator holds it; when none does, the flag is not
    set, provided [P], that it was not set to begin with. *)
Definition one_holder (P : Prop) (s : list generator * world) : Prop :=
  Forall (sound held released) (fst s)
  /\ ((holders (fst s) = 0%nat /\ (P -> truthy (in_flight (snd s)) = false))
      \/ (holders (fst s) = 1%nat /\ held (snd s))).

(** The timestamp of the session is the instant of the newest request
    that opened a call, and these requests are paced. *)
Definition throttled (w : world) : Prop :=
  paced (first_issues (log w))
  /\ match first_issues (log w) with
     | [] => True
     | newest :: _ => last_request w = Some newest
     end.

(** *** Agent lookup *)

(** An agent of the project, as [agents_ops.list()] gives it:
    [getattr(a, "name", None)] and the rest of the object. *)
Record agent := Agent { name : option Py.str; agent_id : Py.str }.

(** [getattr(a, "name", None) == name] *)
Definition is_named (wanted : Py.str) (a : agent) : bool :=
  match name a with
  | Some n => Py.str_eqb n wanted
  | None => false
  end.

(** What [agents_ops.list()] gives when it is iterated: the agents the
    service lists, one after the other, and then the end of the listing
    ([None]) or the exception that the call, or the fetch of a further
    page, raises. *)
Record listing := Listing { listed : list agent; broken : option exn }.

(** [next((a for a in agents_ops.list() if ... == name), None)]: the
    listing is read up to the first agent of that name and no further. *)
Fixpoint first_named (wanted : Py.str) (agents : list agent)
         (ending : option exn) : Py.result exn (option agent) :=
  match agents with
  | [] =>
      match ending with
      | None => Py.Ok None
      | Some e => Py.Raise e
      end
  | a :: rest =>
      if is_named wanted a then Py.Ok (Some a)
      else first_named wanted rest ending
  end.

(** [agent = next(..., None)]; [if not agent: raise ValueError("Agent not
    found")]; [return agent].  An agent object counts as true. *)
Definition get_agent_by_name (agents_ops : listing) (wanted : Py.str)
  : Py.result exn agent :=
  match first_named wanted (listed agents_ops) (broken agents_ops) with
  | Py.Raise e => Py.Raise e
  | Py.Ok (Some a) => Py.Ok a
  | Py.Ok None => Py.Raise (Exception (Py.lit "Agent not found"))
  end.

(** *** File extraction *)

Definition MAX_DOC_CHARS : Z := 12000.
Definition MAX_PDF_PAGES : Z := 40.

(** The uploaded file: [uploaded.name] and [uploaded.getvalue()]. *)
Record uploaded_file := UploadedFile {
  file_name : Py.str;
  getvalue : list Byte.byte
}.

(** What [p.extract_text()] does on one page of a PDF: it raises, or it
    gives a string or [None]. *)
Definition page := Py.result exn (option Py.str).

(** [x or ""] *)
Definition or_empty (x : option Py.str) : Py.str :=
  match x with Some s => s | None => [] end.

(** [p.extract_text() or "" for p in pages], consumed by [join]: the
    first page that raises ends it. *)
Fixpoint page_texts (pages : list page) : Py.result exn (list Py.str) :=
  match pages with
  | [] => Py.Ok []
  | Py.Raise e :: _ => Py.Raise e
  | Py.Ok x :: rest =>
      match page_texts rest with
      | Py.Ok texts => Py.Ok (or_empty x :: texts)
      | Py.Raise e => Py.Raise e
      end
  end.

Section Files.

(** [raw.decode("utf-8", errors="ignore")], of the standard library. *)
Variable decode_utf8_ignore : list Byte.byte -> Py.str.
(** [PdfReader(io.BytesIO(raw)).pages], of pypdf: the reader raises, or
    it gives the pages. *)
Variable PdfReader : list Byte.byte -> Py.result exn (list page).

(** The three branches of [extract_text], on the lowercased name.  As
    for "rate", no code point outside A-Z lowercases to a letter of the
    three suffixes. *)
Definition extract_text (uploaded : uploaded_file) : Py.result exn Py.str :=
  let name := Py.lower (file_name uploaded) in
  let raw := getvalue uploaded in
  if Py.endswith (Py.lit ".txt") name || Py.endswith (Py.lit ".md") name
  then Py.Ok (decode_utf8_ignore raw)
  else if Py.endswith (Py.lit ".pdf") name
  then
    match PdfReader raw with
    | Py.Raise e => Py.Raise e
    | Py.Ok all_pages =>
        let pages := Py.slice_to MAX_PDF_PAGES all_pages in
        match page_texts pages with
        | Py.Ok texts => Py.Ok (Py.join [Py.newline] texts)
        | Py.Raise e => Py.Raise e
        end
    end
  else Py.Ok [].

End Files.

(** [if len(text) > MAX_DOC_CHARS: return text[:MAX_DOC_CHARS] +
    "\n[TRUNCATED]"]; [return text] *)
Definition truncate_text (text : Py.str) : Py.str :=
  if (Py.len text >? MAX_DOC_CHARS)%Z
  then Py.slice_to MAX_DOC_CHARS text ++ Py.newline :: Py.lit "[TRUNCATED]"
  else text.

(** *** The page: sidebar, buttons and chat input

    Streamlit runs the script from top to bottom at every interaction;
    [st.session_state] lasts from one run to the next.  What the page
    draws is left out. *)

Inductive role := user | assistant.

(** [{"role": ..., "content": ...}] *)
Record message := Message { role_of : role; content : Py.str }.

(** The session after its initialisation (lines 154 to 165). *)
Record session := Session {
  state : world;                  (* in_flight, last_request; clock, log *)
  messages : list message;        (* st.session_state.messages *)
  conversation_id : Py.str;       (* st.session_state.conversation_id *)
  doc_sent : bool;                (* st.session_state.doc_sent *)
  documents : list (Py.str * Py.str * bool);
    (* the requests that store a document, the newest first:
       conversation, input, and whether the service accepted it *)
  conversations : nat             (* conversations created by the buttons *)
}.

(** The widgets of one run: the file in the uploader, the two buttons and
    the chat input. *)
Record widgets := Widgets {
  uploaded : option uploaded_file;
  clear_chat : bool;
  new_conversation : bool;
  prompt : option Py.str
}.

(** How one pass over the script ends: at its last line, at [st.rerun()],
    or at an exception that nothing catches. *)
Inductive pass_end :=
| Done
| Rerun
| Failed (e : exn).

Section Page.

Variable decode_utf8_ignore : list Byte.byte -> Py.str.
Variable PdfReader : list Byte.byte -> Py.result exn (list page).
Variable responses_create : nat -> outcome.
Variable random : nat -> Q.
(** The service's answer to the [i]-th request that stores a document:
    [None] when it accepts it, the error it raises otherwise. *)
Variable store_document : nat -> option exn.
(** [openai_client.conversations.create(items=[]).id], for the [i]-th
    conversation the buttons create. *)
Variable conversations_create : nat -> Py.result exn Py.str.
(** [agent.name], of the agent of the session. *)
Variable agent_name : Py.str.

(** Lines 177 to 199: [if uploaded: text = truncate_text(extract_text(
    uploaded)); if text: if not doc_sent: responses.create(input=
    "Reference document:\n" + text, ...); doc_sent = True]. *)
Definition sidebar_upload (file : option uploaded_file) (s : session)
  : session * option exn :=
  match file with
  | None => (s, None)
  | Some f =>
      match extract_text decode_utf8_ignore PdfReader f with
      | Py.Raise e => (s, Some e)
      | Py.Ok extracted =>
          let text := truncate_text extracted in
          if Py.nonempty text && negb (doc_sent s)
          then
            let input := Py.lit "Reference document:" ++ Py.newline :: text in
            match store_document (List.length (documents s)) with
            | Some e =>
                (Session (state s) (messages s) (conversation_id s) (doc_sent s)
                         ((conversation_id s, input, false) :: documents s)
                         (conversations s),
                 Some e)
            | None =>
                (Session (state s) (messages s) (conversation_id s) true
                         ((conversation_id s, input, true) :: documents s)
                         (conversations s),
                 None)
            end
          else (s, None)
      end
  end.

(** Lines 224 to 247: the chat input. *)
Definition chat (typed : option Py.str) (s : session) : session :=
  match typed with
  | None => s
  | Some typed =>
      if Py.nonempty typed
      then
        let prompt := Py.slice_to 1500 typed in
        let user_input := prompt ++ Py.newline :: Py.lit "Answer concisely." in
        let messages := messages s ++ [Message user prompt] in
        let '(chunks, c, w) :=
          drain (stream_agent responses_create random agent_name
                   (conversation_id s) user_input (state s)) in
        let full :=
          match c with
          | Returned => List.concat chunks
          | Raised e => Py.lit "Error: " ++ str e
          end in
        Session w (messages ++ [Message assistant full]) (conversation_id s)
                (doc_sent s) (documents s) (conversations s)
      else s
  end.

(** One pass over the script, from the sidebar to the chat input. *)
Definition pass (ws : widgets) (s : session) : session * pass_end :=
  match sidebar_upload (uploaded ws) s with
  | (s, Some e) => (s, Failed e)
  | (s, None) =>
      if clear_chat ws
      then (Session (state s) [] (conversation_id s) (doc_sent s)
                    (documents s) (conversations s),
            Rerun)
      else if new_conversation ws
      then
        match conversations_create (conversations s) with
        | Py.Raise e => (s, Failed e)
        | Py.Ok id =>
            (Session (state s) [] id false (documents s) (S (conversations s)),
             Rerun)
        end
      else (chat (prompt ws) s, Done)
  end.

(** One interaction: the pass it triggers and, after [st.rerun()], a
    second pass in which the buttons are up and the chat input is empty,
    the uploader keeping its file. *)
Definition interaction (ws : widgets) (s : session) : session * pass_end :=
  match pass ws s with
  | (s', Rerun) => pass (Widgets (uploaded ws) false false None) s'
  | ended => ended
  end.

(** The interactions of a user, the first one first. *)
Definition interactions (wss : list widgets) (s : session) : session :=
  fold_left (fun s ws => fst (interaction ws s)) wss s.

End Page.

(** The messages go by pairs: what the user typed, then the answer. *)
Inductive paired : list message -> Prop :=
| paired_nil : paired []
| paired_turn ms typed answer :
    paired ms ->
    paired (ms ++ [Message user typed; Message assistant answer]).

(** The input of every request of a log has [n] characters at most. *)
Definition inputs_within (n : Z) (l : list effect) : Prop :=
  Forall (fun e => match e with
                   | Request _ _ _ input _ => (Py.len input <= n)%Z
                   | _ => True
                   end) l.

(** The requests of a list that the service accepted. *)
Definition accepted (docs : list (Py.str * Py.str * bool)) : nat :=
  List.length (List.filter (fun d => snd d) docs).

(** *** More vocabulary *)

(** Seconds spent in [time.sleep] according to a log. *)
Fixpoint slept (l : list effect) : Q :=
  match l with
  | [] => 0
  | Sleep secs :: l' => secs + slept l'
  | _ :: l' => slept l'
  end.

(** The pause [throttle_guard] makes in world [w]: what is left of the
    minimum interval since the timestamp, if anything. *)
Definition pacing_wait (w : world) : Q :=
  match last_request w with
  | Some last => Qmax 0 (last + MIN_SECONDS_BETWEEN_REQUESTS - clock w)
  | None => 0
  end.

(** The longest backoff wait after attempt [n]. *)
Definition longest_backoff (n : nat) : Q :=
  1.25 * Qmin 20 (0.8 * inject_Z (2 ^ Z.of_nat n)).

(** The backoff waits of a loop over [range], at the longest: an attempt
    numbered [MAX_RETRIES_429] or more is not followed by a wait. *)
Fixpoint backoff_budget (range : list nat) : Q :=
  match range with
  | [] => 0
  | n :: rest =>
      (if (n <? MAX_RETRIES_429)%nat then longest_backoff n else 0)
      + backoff_budget rest
  end.

(** The attempt failed with an error for which the loop tries again. *)
Definition rate_limited (o : outcome) : Prop :=
  exists e, failure o = Some e /\ is_rate_limit_error e = true.

(** No generator of the pool is suspended. *)
Definition idle (g : generator) : Prop :=
  match g with Suspended _ _ => False | _ => True end.

End Legal_Agent_Interface.

(** ** Concrete sessions, used to run the model *)

Module Scenario.

Import Legal_Agent_Interface.

Definition text_delta (s : string) : event :=
  Event (Some (Py.lit "response.output_text.delta")) (Py.lit s).

Definition completed : event :=
  Event (Some (Py.lit "response.completed")) [].

Definition untyped : event := Event None (Py.lit "x").

Definition too_many_requests : exn :=
  Exception (Py.lit "Error code: 429 - Too Many Requests").

Definition unauthorized : exn :=
  Exception (Py.lit "Error code: 401 - Unauthorized").

Definition answer : list event :=
  [text_delta "Art"; untyped; text_delta "icle 5"; completed].

(** A session that has made no request yet. *)
Definition fresh : world := World None None 0 0 [].

(** A session whose in-flight flag is set. *)
Definition busy : world := World (Some true) (Some 0) 1 0 [].

(** The service rejects the first [k] attempts after 0.1 s each and then
    streams [answer]. *)
Definition limited (k : nat) (i : nat) : outcome :=
  if (i <? k)%nat then Rejects 0.1 too_many_requests
  else Streams 0.2 answer None.

(** The first stream breaks after one fragment with a rate-limit error;
    the second attempt streams [answer]. *)
Definition interrupted (i : nat) : outcome :=
  if (i <? 1)%nat then Streams 0.2 [text_delta "Art"] (Some too_many_requests)
  else Streams 0.2 answer None.

(** The service rejects every attempt with a rate-limit error. *)
Definition always_limited (i : nat) : outcome :=
  Rejects 0.1 too_many_requests.

(** The service rejects every attempt with another error. *)
Definition always_unauthorized (i : nat) : outcome :=
  Rejects 0.1 unauthorized.

(** A stream without text. *)
Definition silent (i : nat) : outcome := Streams 0.2 [completed] None.

(** The agents of a project: two of them bear the same name, and the
    fetch of the page after them fails. *)
Definition project_agents : listing :=
  Listing
    [Agent (Some (Py.lit "Intake")) (Py.lit "asst_1");
     Agent None (Py.lit "asst_2");
     Agent (Some (Py.lit "Legal-Agent2")) (Py.lit "asst_3");
     Agent (Some (Py.lit "Legal-Agent2")) (Py.lit "asst_4")]
    (Some (Exception (Py.lit "503 Service Unavailable"))).

(** Uploaded files. *)
Definition notes_file : uploaded_file :=
  UploadedFile (Py.lit "Notes.TXT") [Byte.x48; Byte.x69].
Definition image_file : uploaded_file :=
  UploadedFile (Py.lit "scan.png") [Byte.x89].

(** A decoder that reads every byte as one code point. *)
Definition latin1 (raw : list Byte.byte) : Py.str :=
  List.map (fun b => N.of_nat (Byte.to_nat b)) raw.

(** A PDF of [n] pages: a page holds the text "p", every third page
    none. *)
Definition pages_of (n : nat) : list page :=
  List.map (fun i => if (i mod 3 =? 2)%nat then Py.Ok None
                     else Py.Ok (Some (Py.lit "p")))
           (seq 0 n).

Definition pdf_of (n : nat) (raw : list Byte.byte)
  : Py.result exn (list page) :=
  Py.Ok (pages_of n).

(** A session at its first run, and one whose in-flight flag is set. *)
Definition opening : session :=
  Session fresh [] (Py.lit "conv_1") false [] 0.
Definition wedged : session :=
  Session busy [] (Py.lit "conv_1") false [] 0.

(** The service rejects the first request that stores a document and
    accepts the next ones. *)
Definition store_flaky (i : nat) : option exn :=
  if (i <? 1)%nat then Some too_many_requests else None.

Definition new_ids (i : nat) : Py.result exn Py.str :=
  Py.Ok (Py.lit "conv_2").

(** A visit: a question with a file in the uploader, the same again, the
    history cleared, a last question. *)
Definition question : widgets :=
  Widgets (Some notes_file) false false (Some (Py.lit "What does article 5 say?")).
Definition clearing : widgets :=
  Widgets (Some notes_file) true false None.
Definition visit : list widgets := [question; question; clearing; question].

(** A translation that tags the text with the target language, an agent
    that always gives the same answer, and a count of the calls. *)
Definition tagging (text from_lang to_lang : Py.str) (calls : nat)
  : Py.result KenAgent_Draft_workflow_Translation.error
              KenAgent_Draft_workflow_Translation.value * nat :=
  (Py.Ok (KenAgent_Draft_workflow_Translation.VStr (to_lang ++ Py.lit ":" ++ text)),
   S calls).

Definition constant_answer (a : KenAgent_Draft_workflow_Translation.agent)
           (working_query : KenAgent_Draft_workflow_Translation.value)
           (calls : nat)
  : Py.result KenAgent_Draft_workflow_Translation.error Py.str * nat :=
  (Py.Ok (Py.lit "Article 12"), S calls).

(** "Hi" and the same greeting in Arabic. *)
Definition greeting : Py.str := Py.lit "Hi".
Definition arabic_greeting : Py.str := [0x0645; 0x0631; 0x062D; 0x0628; 0x0627]%N.

(** [random.random()] returns 0, or 1/2, every time. *)
Definition random_zero (i : nat) : Q := 0.
Definition random_half (i : nat) : Q := 0.5.

(** Two calls, the second one started and closed while the first one is
    suspended at its first [yield]. *)
Definition overlapping : list action :=
  [Call (Py.lit "Legal-Agent2") (Py.lit "conv_1") (Py.lit "Hi");
   Next 0; Call (Py.lit "Legal-Agent2") (Py.lit "conv_1") (Py.lit "Again");
   Next 1; Close 1; Next 0; Idle 1; Close 0].

(** Three calls in a row, each one drained, 1 s and 4 s apart. *)
Definition in_a_row : list action :=
  [Call (Py.lit "Legal-Agent2") (Py.lit "conv_1") (Py.lit "Hi");
   Next 0; Next 0; Next 0; Idle 1;
   Call (Py.lit "Legal-Agent2") (Py.lit "conv_1") (Py.lit "Again");
   Next 1; Next 1; Next 1; Idle 4;
   Call (Py.lit "Legal-Agent2") (Py.lit "conv_1") (Py.lit "More");
   Next 2; Next 2; Next 2].

Definition agent_name : Py.str := Py.lit "Legal-Agent2".
Definition conv_id : Py.str := Py.lit "conv_1".
Definition text : Py.str := Py.lit "Hi".

End Scenario.

(** * Properties *)

(** ** Strings *)

Section PyFacts.

Import Py.

Lemma char_eqb_eq (a b : char) : char_eqb a b = true <-> a = b.
Proof. apply N.eqb_eq. Qed.

Lemma str_eqb_eq (a b : str) : str_eqb a b = true <-> a = b.
Proof.
  revert b; induction a as [|x a IH]; intros [|y b]; simpl;
    try (split; [discriminate | congruence]); try tauto.
  rewrite andb_true_iff, char_eqb_eq, IH.
  split; [intros [-> ->]; reflexivity | intros [= -> ->]; auto].
Qed.

Lemma startswith_spec (pat s : str) :
  startswith pat s = true <-> exists post, s = pat ++ post.
Proof.
  revert s; induction pat as [|p pat IH]; intros s; simpl.
  - split; [intros _; exists s; reflexivity | reflexivity].
  - destruct s as [|c s].
    + split; [discriminate | intros [post H]; discriminate].
    + rewrite andb_true_iff, char_eqb_eq, IH. split.
      * intros [-> [post ->]]. exists post; reflexivity.
      * intros [post [= -> ->]]. split; [reflexivity | exists post; reflexivity].
Qed.

Lemma contains_spec (pat s : str) : contains pat s = true <-> occurs pat s.
Proof.
  unfold occurs. induction s as [|c s IH].
  - simpl. rewrite orb_false_r, startswith_spec. split.
    + intros [post H]. exists [], post. exact H.
    + intros [[|x pre] [post H]]; [exists post; exact H | discriminate].
  - cbn [contains]. rewrite orb_true_iff, startswith_spec, IH. split.
    + intros [[post H] | [pre [post H]]].
      * exists [], post. exact H.
      * exists (c :: pre), post. rewrite H. reflexivity.
    + intros [[|x pre] [post H]].
      * left. exists post. exact H.
      * right. injection H as _ H. exists pre, post. exact H.
Qed.

(** Lowercasing a code point gives a letter that is not a capital exactly
    for that letter and for its capital. *)
Lemma lower_char_letter (a b : char) :
  ~ (65 <= b <= 90)%N -> lower_char a = b <-> same_letter a b.
Proof.
  intros Hb. unfold lower_char, same_letter.
  destruct ((65 <=? a)%N && (a <=? 90)%N) eqn:E.
  - apply andb_true_iff in E. destruct E as [E1 E2].
    apply N.leb_le in E1, E2. split; [intros <-; right; left; lia | lia].
  - apply andb_false_iff in E. rewrite !N.leb_gt in E. split; [auto | lia].
Qed.

Lemma lower_matches (mid pat : str) :
  Forall (fun b => ~ (65 <= b <= 90)%N) pat ->
  lower mid = pat <-> Forall2 same_letter mid pat.
Proof.
  unfold lower. revert pat; induction mid as [|a mid IH]; intros pat Hpat.
  - simpl. split; [intros <-; constructor | intros H; inversion H; reflexivity].
  - simpl. split.
    + intros <-. inversion Hpat as [|? ? Hb Hrest]; subst.
      constructor; [apply lower_char_letter; auto | apply IH; auto].
    + intros H. inversion H as [|? b ? pat' Hab Hrest]; subst.
      inversion Hpat as [|? ? Hb Hpat']; subst. f_equal.
      * apply lower_char_letter; assumption.
      * apply IH; assumption.
Qed.

Lemma contains_lower_spec (pat s : str) :
  Forall (fun b => ~ (65 <= b <= 90)%N) pat ->
  contains pat (lower s) = true <-> occurs_ignoring_case pat s.
Proof.
  intros Hpat. rewrite contains_spec. unfold occurs, occurs_ignoring_case, lower.
  split.
  - intros [pre' [post' H]].
    apply map_eq_app in H. destruct H as [pre [rest [-> [_ H]]]].
    apply map_eq_app in H. destruct H as [mid [post [-> [H _]]]].
    exists pre, mid, post. split; [reflexivity | apply lower_matches; assumption].
  - intros [pre [mid [post [-> H]]]].
    exists (map lower_char pre), (map lower_char post).
    rewrite !map_app. do 2 f_equal. apply (lower_matches mid pat Hpat). exact H.
Qed.

End PyFacts.

(** ** Language detection *)

Section DetectLanguage.

Import Py.

Lemma any_between_spec (text : str) :
  any (between 0x0600%N 0x06FF%N) text = true <-> has_arabic text.
Proof.
  unfold any, has_arabic. rewrite existsb_exists.
  split; intros [c [Hin H]]; exists c; split; auto; unfold between in *.
  - apply andb_true_iff in H. rewrite !N.leb_le in H. exact H.
  - apply andb_true_iff. rewrite !N.leb_le. exact H.
Qed.

(** C10.  In both routers [detect_language] returns the Arabic label
    ("arabic", resp. "ar") exactly when the text holds a character in
    U+0600..U+06FF and the English label ("english", resp. "en") exactly
    when it holds none; the empty text is English. *)
Theorem detect_language_arabic_iff (text : str) :
  (KenAgent_Draft_workflow.detect_language text = lit "arabic"
     <-> has_arabic text) /\
  (KenAgent_Draft_workflow.detect_language text = lit "english"
     <-> ~ has_arabic text) /\
  (KenAgent_Draft_workflow_Translation.detect_language text = lit "ar"
     <-> has_arabic text) /\
  (KenAgent_Draft_workflow_Translation.detect_language text = lit "en"
     <-> ~ has_arabic text) /\
  KenAgent_Draft_workflow.detect_language [] = lit "english" /\
  KenAgent_Draft_workflow_Translation.detect_language [] = lit "en".
Proof.
  unfold KenAgent_Draft_workflow.detect_language,
    KenAgent_Draft_workflow_Translation.detect_language.
  pose proof (any_between_spec text) as H.
  destruct (any (between 0x0600%N 0x06FF%N) text).
  - assert (has_arabic text) as Ha by (apply H; reflexivity).
    repeat split; auto; try discriminate; try contradiction.
  - assert (~ has_arabic text) as Hn
        by (intros Ha; apply H in Ha; discriminate).
    repeat split; auto; try discriminate; try contradiction.
Qed.

End DetectLanguage.

(** ** Rate limit helpers *)

Section RateLimitHelpers.

Import Legal_Agent_Interface.

(** C9.  [is_rate_limit_error] answers [True] exactly for the errors
    whose text holds "429" or holds "rate" in any mix of upper and lower
    case. *)
Theorem is_rate_limit_error_iff (e : exn) :
  is_rate_limit_error e = true <->
  Py.occurs (Py.lit "429") (str e)
  \/ Py.occurs_ignoring_case (Py.lit "rate") (str e).
Proof.
  unfold is_rate_limit_error.
  rewrite orb_true_iff, contains_spec, contains_lower_spec; [reflexivity|].
  repeat constructor; vm_compute; intros [H1 H2];
    first [apply H1; reflexivity | apply H2; reflexivity].
Qed.

Lemma backoff_base_range (attempt : nat) :
  0 <= Qmin 20 (0.8 * inject_Z (2 ^ Z.of_nat attempt)) <= 20.
Proof.
  split; [|apply Q.le_min_l].
  apply Q.min_glb; [discriminate|].
  apply Qmult_le_0_compat; [discriminate|].
  change 0 with (inject_Z 0). rewrite <- Zle_Qle. lia.
Qed.

Lemma backoff_delay_range (attempt : nat) (r : Q) :
  0 <= r -> r < 1 ->
  let base := Qmin 20 (0.8 * inject_Z (2 ^ Z.of_nat attempt)) in
  0.75 * base <= backoff_delay attempt r
  /\ backoff_delay attempt r <= 1.25 * base
  /\ backoff_delay attempt r <= 25.
Proof.
  intros Hr0 Hr1 base. unfold backoff_delay. fold base.
  destruct (backoff_base_range attempt) as [Hb0 Hb20]. fold base in Hb0, Hb20.
  assert (0 <= base * r) as H0 by (apply Qmult_le_0_compat; assumption).
  assert (base * r <= base) as H1.
  { setoid_replace base with (base * 1) at 2 by ring.
    rewrite (Qmult_comm base r), (Qmult_comm base 1).
    apply Qmult_le_compat_r; [apply Qlt_le_weak; assumption | assumption]. }
  setoid_replace (base * (0.75 + r * 0.5)) with (0.75 * base + 0.5 * (base * r))
    by ring.
  repeat split; lra.
Qed.


End RateLimitHelpers.



(** ** The streaming call, drained by its caller *)

Section Streaming.

Import Legal_Agent_Interface.

Variable responses_create : nat -> outcome.
Variable random : nat -> Q.
Variables agent_name conv_id text : Py.str.

Local Abbreviation on_exception := (on_exception random).
Local Abbreviation for_event := (for_event random).
Local Abbreviation for_attempt :=
  (for_attempt responses_create random agent_name conv_id text).
Local Abbreviation stream_agent :=
  (stream_agent responses_create random agent_name conv_id text).

Lemma attempts_throttle_guard (w : world) :
  attempts (throttle_guard w) = attempts w.
Proof.
  unfold throttle_guard. destruct (last_request w) as [last|]; [|reflexivity].
  destruct (Qltb _ _); reflexivity.
Qed.

(** Below the bound on the retries [backoff_sleep] does not raise: the
    clause hands over to the rest of the loop. *)
Lemma on_exception_retry retry (attempt : nat) (e : exn) (w : world) :
  is_rate_limit_error e && (attempt <? MAX_RETRIES_429)%nat = true ->
  on_exception retry attempt e w = retry (backoff_wait random attempt w).
Proof.
  intros H. unfold Legal_Agent_Interface.on_exception. rewrite H.
  apply andb_true_iff in H. destruct H as [_ H]. apply Nat.ltb_lt in H.
  unfold backoff_sleep.
  replace (attempt <? 1024)%nat with true; [reflexivity|].
  symmetry. apply Nat.ltb_lt. unfold MAX_RETRIES_429 in H. lia.
Qed.

Lemma attempts_retry attempt latency (w : world) :
  attempts (backoff_wait random attempt
              (elapse latency
                 (emit (Request (clock w) attempt conv_id text agent_name) w)))
  = S (attempts w).
Proof. reflexivity. Qed.

(** What the inner loop hands to a caller that drains it. *)
Lemma drain_for_event retry attempt events ending w :
  drain (for_event retry attempt events ending w) =
  match ending with
  | None => (text_deltas events, Returned, release w)
  | Some e =>
      let '(rest, c, w') := drain (on_exception retry attempt e w) in
      (text_deltas events ++ rest, c, w')
  end.
Proof.
  induction events as [|ev events IH]; cbn [Legal_Agent_Interface.for_event].
  - destruct ending as [e|]; [|reflexivity].
    destruct (drain _) as [[rest c] w']. reflexivity.
  - unfold text_deltas. cbn [filter].
    destruct (is_text_delta ev); [cbn [drain map]|]; rewrite IH;
      destruct ending as [e|]; try reflexivity.
    destruct (drain (on_exception retry attempt e w)) as [[rest c] w'].
    reflexivity.
Qed.

(** [k] attempts in a row that fail with a rate-limit error, none of them
    the last one allowed: the loop goes on with the attempts that are
    left, after [k] requests, and what the failed streams delivered has
    been handed to the caller. *)
Lemma drain_retries (k a len : nat) (w : world) :
  (a + k <= MAX_RETRIES_429)%nat -> (k <= len)%nat ->
  (forall i, (i < k)%nat ->
     exists e, failure (responses_create (attempts w + i)) = Some e
               /\ is_rate_limit_error e = true) ->
  exists w1,
    attempts w1 = (attempts w + k)%nat
    /\ in_flight w1 = in_flight w
    /\ drain (for_attempt (seq a len) w) =
       let '(rest, c, w') := drain (for_attempt (seq (a + k) (len - k)) w1) in
       (flat_map (fun i => delivered (responses_create i)) (seq (attempts w) k)
          ++ rest, c, w').
Proof.
  revert a len w. induction k as [|k IH]; intros a len w Ha Hlen Hfail.
  - exists w. rewrite !Nat.add_0_r, Nat.sub_0_r. repeat split.
    destruct (drain _) as [[rest c] w']. reflexivity.
  - destruct len as [|len]; [lia|].
    destruct (Hfail 0%nat ltac:(lia)) as [e [He Hrate]].
    rewrite Nat.add_0_r in He.
    set (w0 := emit (Request (clock w) a conv_id text agent_name) w).
    assert (forall latency,
               on_exception (for_attempt (seq (S a) len)) a e (elapse latency w0)
               = for_attempt (seq (S a) len)
                   (backoff_wait random a (elapse latency w0))) as Hretry.
    { intros latency. apply on_exception_retry. rewrite Hrate.
      apply Nat.ltb_lt. lia. }
    assert (forall latency,
               exists w1,
                 attempts w1 = (attempts w + S k)%nat
                 /\ in_flight w1 = in_flight w
                 /\ drain (for_attempt (seq (S a) len)
                             (backoff_wait random a (elapse latency w0))) =
                    let '(rest, c, w') :=
                      drain (for_attempt (seq (a + S k) (len - k)) w1) in
                    (flat_map (fun i => delivered (responses_create i))
                              (seq (S (attempts w)) k) ++ rest, c, w')) as Hnext.
    { intros latency.
      destruct (IH (S a) len (backoff_wait random a (elapse latency w0)))
        as [w1 [Hw1 [Hflag Hdrain]]]; [lia | lia | |].
      - intros i Hi. destruct (Hfail (S i) ltac:(lia)) as [e' He'].
        exists e'. unfold w0. rewrite attempts_retry.
        replace (S (attempts w) + i)%nat with (attempts w + S i)%nat by lia.
        exact He'.
      - exists w1. unfold w0 in Hw1. rewrite attempts_retry in Hw1.
        split; [rewrite Hw1; lia|]. split; [exact Hflag|].
        rewrite Hdrain. replace (S a + k)%nat with (a + S k)%nat by lia.
        reflexivity. }
    cbn [seq Legal_Agent_Interface.for_attempt Nat.sub]. fold w0.
    destruct (responses_create (attempts w)) as [latency e0 | latency events ending]
      eqn:Hanswer; cbn [failure] in He.
    + injection He as ->. destruct (Hnext latency) as [w1 [Hw1 [Hflag Hdrain]]].
      exists w1. split; [exact Hw1|]. split; [exact Hflag|].
      rewrite Hretry, Hdrain. cbn [flat_map]. rewrite Hanswer. reflexivity.
    + subst ending. destruct (Hnext latency) as [w1 [Hw1 [Hflag Hdrain]]].
      exists w1. split; [exact Hw1|]. split; [exact Hflag|].
      rewrite drain_for_event, Hretry, Hdrain. cbn [flat_map]. rewrite Hanswer.
      cbn [delivered].
      destruct (drain (for_attempt (seq (a + S k) (len - k)) w1))
        as [[rest c] w'].
      rewrite app_assoc. reflexivity.
Qed.

Lemma stream_agent_free (w : world) :
  truthy (in_flight w) = false ->
  stream_agent w =
  for_attempt (seq 0 (MAX_RETRIES_429 + 1))
              (throttle_guard (set_in_flight true w)).
Proof.
  intros H. unfold Legal_Agent_Interface.stream_agent. rewrite H. reflexivity.
Qed.

Lemma stream_agent_busy (w : world) :
  truthy (in_flight w) = true ->
  stream_agent w =
  Stop Returned (warning (Py.lit "Request already running") w).
Proof.
  intros H. unfold Legal_Agent_Interface.stream_agent. rewrite H. reflexivity.
Qed.

(** An attempt whose error is not retried ends the call. *)
Lemma drain_fatal (a : nat) (range : list nat) (w : world) (e : exn) :
  failure (responses_create (attempts w)) = Some e ->
  is_rate_limit_error e && (a <? MAX_RETRIES_429)%nat = false ->
  drain (for_attempt (a :: range) w) =
  (delivered (responses_create (attempts w)), Raised e,
   release (elapse (duration (responses_create (attempts w)))
              (emit (Request (clock w) a conv_id text agent_name) w))).
Proof.
  intros He Hfatal. cbn [Legal_Agent_Interface.for_attempt].
  destruct (responses_create (attempts w)) as [latency e0 | latency events ending];
    cbn [failure] in He; cbn [delivered duration].
  - injection He as ->. unfold Legal_Agent_Interface.on_exception.
    rewrite Hfatal. reflexivity.
  - subst ending. rewrite drain_for_event.
    unfold Legal_Agent_Interface.on_exception. rewrite Hfatal.
    cbn [drain]. rewrite app_nil_r. reflexivity.
Qed.

(** An attempt that streams to the end ends the call. *)
Lemma drain_success (a : nat) (range : list nat) (w : world) latency events :
  responses_create (attempts w) = Streams latency events None ->
  drain (for_attempt (a :: range) w) =
  (text_deltas events, Returned,
   release (elapse latency
              (emit (Request (clock w) a conv_id text agent_name) w))).
Proof.
  intros Hanswer. cbn [Legal_Agent_Interface.for_attempt].
  rewrite Hanswer, drain_for_event. reflexivity.
Qed.

Lemma nothing_delivered (n k : nat) :
  (forall i, (i < k)%nat ->
     exists latency e, responses_create (n + i) = Rejects latency e
                       /\ is_rate_limit_error e = true) ->
  flat_map (fun i => delivered (responses_create i)) (seq n k) = [].
Proof.
  revert n. induction k as [|k IH]; intros n H; [reflexivity|].
  cbn [seq flat_map].
  destruct (H 0%nat ltac:(lia)) as [latency [e [H0 _]]].
  rewrite Nat.add_0_r in H0. rewrite H0. cbn [delivered app].
  apply IH. intros i Hi. destruct (H (S i) ltac:(lia)) as [l' [e' He']].
  exists l', e'. replace (S n + i)%nat with (n + S i)%nat by lia. exact He'.
Qed.

(** [k] rejections for rate limit, then a stream that ends well. *)
Lemma drain_rejections_then_stream (k : nat) (w : world) latency events :
  truthy (in_flight w) = false ->
  (k <= MAX_RETRIES_429)%nat ->
  (forall i, (i < k)%nat ->
     exists latency e,
       responses_create (attempts w + i) = Rejects latency e
       /\ is_rate_limit_error e = true) ->
  responses_create (attempts w + k) = Streams latency events None ->
  exists w',
    drain (stream_agent w) = (text_deltas events, Returned, w')
    /\ attempts w' = (attempts w + (k + 1))%nat
    /\ in_flight w' = Some false.
Proof.
  intros Hfree Hk Hrej Hok. rewrite (stream_agent_free _ Hfree).
  set (w0 := throttle_guard (set_in_flight true w)).
  assert (attempts w0 = attempts w) as Hw0
    by exact (attempts_throttle_guard (set_in_flight true w)).
  destruct (drain_retries k 0 (MAX_RETRIES_429 + 1) w0) as [w1 [Hw1 [_ Hdrain]]].
  - lia.
  - lia.
  - intros i Hi. destruct (Hrej i Hi) as [l [e [He Hrate]]].
    exists e. rewrite Hw0, He. split; [reflexivity | exact Hrate].
  - rewrite Hdrain, Hw0, (nothing_delivered _ _ Hrej). cbn [app Nat.add].
    destruct (MAX_RETRIES_429 + 1 - k)%nat as [|len] eqn:Hlen; [lia|].
    cbn [seq]. rewrite (drain_success k (seq (S k) len) w1 latency events).
    + eexists. split; [reflexivity|]. split; [|reflexivity].
      change (S (attempts w1) = (attempts w + (k + 1))%nat). lia.
    + rewrite Hw1, Hw0. exact Hok.
Qed.

(** C1.  The in-flight flag being free, if the service rejects the next
    [k] attempts with rate-limit errors, [k <= MAX_RETRIES_429], and then
    streams to the end, the call makes exactly [k + 1] network attempts
    and hands to its caller the text deltas of that stream, in order. *)
Theorem retries_then_stream (k : nat) (w : world) latency events :
  truthy (in_flight w) = false ->
  (k <= MAX_RETRIES_429)%nat ->
  (forall i, (i < k)%nat ->
     exists latency e,
       responses_create (attempts w + i) = Rejects latency e
       /\ is_rate_limit_error e = true) ->
  responses_create (attempts w + k) = Streams latency events None ->
  exists w',
    drain (stream_agent w) = (text_deltas events, Returned, w')
    /\ attempts w' = (attempts w + (k + 1))%nat.
Proof.
  intros Hfree Hk Hrej Hok.
  destruct (drain_rejections_then_stream k w latency events Hfree Hk Hrej Hok)
    as [w' [Hdrain [Hattempts _]]].
  exists w'. split; assumption.
Qed.

Lemma is_text_delta_iff (ev : event) :
  is_text_delta ev = true
  <-> type ev = Some (Py.lit "response.output_text.delta").
Proof.
  unfold is_text_delta. destruct (type ev) as [t|].
  - rewrite str_eqb_eq. split; [intros ->; reflexivity | intros [= ->]; reflexivity].
  - split; discriminate.
Qed.

(** C8.  An event counts as a text delta exactly when its type is
    "response.output_text.delta".  On a stream that ends well the loop of
    [stream_agent] yields the [delta] payloads of these events, each once
    and in arrival order, and skips the other events, whatever the
    attempt.  For a call whose earlier attempts were rejected, these are
    all the fragments its caller receives, and their concatenation is the
    concatenation of those payloads. *)
Theorem stream_yields_text_deltas (k : nat) (w : world) latency events :
  (forall ev, In ev (List.filter is_text_delta events)
     <-> In ev events
         /\ type ev = Some (Py.lit "response.output_text.delta"))
  /\ (forall retry attempt w0,
        drain (for_event retry attempt events None w0)
        = (List.map delta (List.filter is_text_delta events), Returned,
           release w0))
  /\ (truthy (in_flight w) = false ->
      (k <= MAX_RETRIES_429)%nat ->
      (forall i, (i < k)%nat ->
         exists latency e,
           responses_create (attempts w + i) = Rejects latency e
           /\ is_rate_limit_error e = true) ->
      responses_create (attempts w + k) = Streams latency events None ->
      let '(fragments, c, _) := drain (stream_agent w) in
      fragments = List.map delta (List.filter is_text_delta events)
      /\ List.concat fragments
         = List.concat (List.map delta (List.filter is_text_delta events))
      /\ c = Returned).
Proof.
  split; [intros ev; rewrite filter_In, is_text_delta_iff; reflexivity|].
  split; [intros retry attempt w0; apply drain_for_event|].
  intros Hfree Hk Hrej Hok.
  destruct (drain_rejections_then_stream k w latency events Hfree Hk Hrej Hok)
    as [w' [Hdrain _]].
  rewrite Hdrain. repeat split; reflexivity.
Qed.

(** C3.  The in-flight flag being free, if every attempt fails with a
    rate-limit error, the call makes exactly [MAX_RETRIES_429 + 1]
    network attempts and then raises, to its caller, the error of the
    last of them. *)
Theorem persistent_rate_limit_surfaces (w : world) :
  truthy (in_flight w) = false ->
  (forall i, exists e, failure (responses_create i) = Some e
                       /\ is_rate_limit_error e = true) ->
  exists fragments e w',
    drain (stream_agent w) = (fragments, Raised e, w')
    /\ failure (responses_create (attempts w + MAX_RETRIES_429)) = Some e
    /\ is_rate_limit_error e = true
    /\ attempts w' = (attempts w + (MAX_RETRIES_429 + 1))%nat.
Proof.
  intros Hfree Hfail. rewrite (stream_agent_free _ Hfree).
  set (w0 := throttle_guard (set_in_flight true w)).
  assert (attempts w0 = attempts w) as Hw0
    by exact (attempts_throttle_guard (set_in_flight true w)).
  destruct (drain_retries MAX_RETRIES_429 0 (MAX_RETRIES_429 + 1) w0)
    as [w1 [Hw1 [_ Hdrain]]]; [lia | lia | intros i _; apply Hfail |].
  destruct (Hfail (attempts w1)) as [e [He Hrate]].
  rewrite Hdrain. change (MAX_RETRIES_429 + 1 - MAX_RETRIES_429)%nat with 1%nat.
  cbn [seq]. rewrite (drain_fatal _ [] w1 e He).
  - eexists _, e, _. split; [reflexivity|].
    rewrite Hw1, Hw0 in He. repeat split; try assumption.
    change (S (attempts w1) = (attempts w + (MAX_RETRIES_429 + 1))%nat). lia.
  - rewrite Hrate. reflexivity.
Qed.

(** C4.  The in-flight flag being free, if the first attempt fails with
    an error that is not a rate-limit error, the call raises that very
    error to its caller after exactly one network attempt: past the
    pacing of [throttle_guard] its one effect is that request, with no
    sleep and no random draw. *)
Theorem fatal_error_not_retried (w : world) (e : exn) :
  truthy (in_flight w) = false ->
  failure (responses_create (attempts w)) = Some e ->
  is_rate_limit_error e = false ->
  exists fragments w',
    drain (stream_agent w) = (fragments, Raised e, w')
    /\ attempts w' = (attempts w + 1)%nat
    /\ log w' =
       Request (clock (throttle_guard (set_in_flight true w))) 0
               conv_id text agent_name
         :: log (throttle_guard (set_in_flight true w))
    /\ draws w' = draws w.
Proof.
  intros Hfree He Hrate. rewrite (stream_agent_free _ Hfree).
  set (w0 := throttle_guard (set_in_flight true w)).
  assert (attempts w0 = attempts w) as Hw0
    by exact (attempts_throttle_guard (set_in_flight true w)).
  change (seq 0 (MAX_RETRIES_429 + 1)) with (0%nat :: seq 1 MAX_RETRIES_429).
  rewrite <- Hw0 in He. rewrite (drain_fatal _ _ w0 e He).
  - eexists _, _. split; [reflexivity|]. split; [|split; [reflexivity|]].
    + change (S (attempts w0) = (attempts w + 1)%nat). lia.
    + cbn [draws release set_in_flight elapse emit]. unfold w0, throttle_guard.
      cbn [last_request set_in_flight].
      destruct (last_request w) as [last|]; [|reflexivity].
      destruct (Qltb _ _); reflexivity.
  - rewrite Hrate. reflexivity.
Qed.

(** C5 (amended).  A call made while the in-flight flag is set is refused
    without failing: its one effect is the warning "Request already
    running", shown on the page by [st.warning], and the generator ends at
    once, normally, without a fragment and without an exception.  It makes
    no network attempt, no pause and no random draw, and leaves the clock,
    the throttle timestamp and the flag as they are. *)
Theorem busy_call_refused (w : world) :
  truthy (in_flight w) = true ->
  exists w',
    drain (stream_agent w) = ([], Returned, w')
    /\ log w' = Warning (Py.lit "Request already running") :: log w
    /\ attempts w' = attempts w
    /\ clock w' = clock w
    /\ draws w' = draws w
    /\ last_request w' = last_request w
    /\ in_flight w' = in_flight w.
Proof.
  intros Hbusy. rewrite (stream_agent_busy _ Hbusy).
  eexists. split; [reflexivity|]. repeat split.
Qed.

End Streaming.

Section StreamingRuns.

Import Legal_Agent_Interface Scenario.

Lemma retries_then_stream_witness :
  truthy (in_flight fresh) = false /\
  exists w',
    drain (stream_agent (limited 2) random_zero agent_name conv_id text fresh)
    = (text_deltas answer, Returned, w')
    /\ attempts w' = (attempts fresh + (2 + 1))%nat.
Proof.
  split; [reflexivity|].
  apply (retries_then_stream (limited 2) random_zero agent_name conv_id text
           2 fresh 0.2 answer).
  - reflexivity.
  - unfold MAX_RETRIES_429. lia.
  - intros i Hi. exists 0.1, too_many_requests.
    destruct i as [|[|i]]; [split; reflexivity | split; reflexivity | lia].
  - reflexivity.
Defined.

Lemma stream_yields_text_deltas_witness :
  truthy (in_flight fresh) = false /\
  let '(fragments, c, _) :=
    drain (stream_agent (limited 1) random_half agent_name conv_id text fresh) in
  fragments = List.map delta (List.filter is_text_delta answer)
  /\ List.concat fragments
     = List.concat (List.map delta (List.filter is_text_delta answer))
  /\ c = Returned.
Proof.
  split; [reflexivity|].
  destruct (stream_yields_text_deltas (limited 1) random_half agent_name conv_id
              text 1 fresh 0.2 answer) as [_ [_ Hcall]].
  apply Hcall.
  - reflexivity.
  - unfold MAX_RETRIES_429. lia.
  - intros i Hi. exists 0.1, too_many_requests.
    destruct i as [|i]; [split; reflexivity | lia].
  - reflexivity.
Defined.

Lemma persistent_rate_limit_surfaces_witness :
  truthy (in_flight fresh) = false /\
  exists fragments e w',
    drain (stream_agent always_limited random_half agent_name conv_id text fresh)
    = (fragments, Raised e, w')
    /\ failure (always_limited (attempts fresh + MAX_RETRIES_429)) = Some e
    /\ is_rate_limit_error e = true
    /\ attempts w' = (attempts fresh + (MAX_RETRIES_429 + 1))%nat.
Proof.
  split; [reflexivity|].
  apply (persistent_rate_limit_surfaces always_limited random_half agent_name
           conv_id text fresh).
  - reflexivity.
  - intros i. exists too_many_requests. split; reflexivity.
Defined.

Lemma fatal_error_not_retried_witness :
  truthy (in_flight fresh) = false /\
  is_rate_limit_error unauthorized = false /\
  exists fragments w',
    drain (stream_agent always_unauthorized random_half agent_name conv_id
             text fresh)
    = (fragments, Raised unauthorized, w')
    /\ attempts w' = (attempts fresh + 1)%nat
    /\ log w' =
       Request (clock (throttle_guard (set_in_flight true fresh))) 0
               conv_id text agent_name
         :: log (throttle_guard (set_in_flight true fresh))
    /\ draws w' = draws fresh.
Proof.
  split; [reflexivity|]. split; [reflexivity|].
  apply (fatal_error_not_retried always_unauthorized random_half agent_name
           conv_id text fresh unauthorized); reflexivity.
Defined.

Lemma busy_call_refused_witness :
  truthy (in_flight busy) = true /\
  exists w',
    drain (stream_agent (limited 0) random_half agent_name conv_id text busy)
    = ([], Returned, w')
    /\ log w' = Warning (Py.lit "Request already running") :: log busy
    /\ attempts w' = attempts busy
    /\ clock w' = clock busy
    /\ draws w' = draws busy
    /\ last_request w' = last_request busy
    /\ in_flight w' = in_flight busy.
Proof.
  split; [reflexivity|].
  apply (busy_call_refused (limited 0) random_half agent_name conv_id text busy).
  reflexivity.
Defined.

(** C5, as stated, fails.  A call made while the flag is set does not fail:
    no exception reaches the caller, who receives an empty generator that
    ends normally, as from a call in a free session whose stream carries no
    text. *)
Lemma busy_call_does_not_fail :
  truthy (in_flight busy) = true
  /\ ~ fails (stream_agent (limited 0) random_half agent_name conv_id text busy)
  /\ (exists w',
        drain (stream_agent (limited 0) random_half agent_name conv_id text busy)
        = ([], Returned, w'))
  /\ (exists w',
        drain (stream_agent silent random_half agent_name conv_id text fresh)
        = ([], Returned, w')).
Proof.
  split; [reflexivity|].
  assert (stream_agent (limited 0) random_half agent_name conv_id text busy
          = Stop Returned (warning (Py.lit "Request already running") busy))
    as Hbusy by (apply stream_agent_busy; reflexivity).
  split; [|split].
  - intros [fragments [e [w H]]]. rewrite Hbusy in H. discriminate H.
  - rewrite Hbusy. eexists. reflexivity.
  - eexists. reflexivity.
Qed.

(** A stream that breaks in mid-iteration with a rate-limit error is
    retried like a rejected call: the fragments it had delivered stay with
    the caller, ahead of those of the next stream. *)
Example mid_stream_retry_replays :
  fst (fst (drain (stream_agent interrupted random_half agent_name conv_id text
                     fresh)))
  = [Py.lit "Art"; Py.lit "Art"; Py.lit "icle 5"].
Proof. reflexivity. Qed.

End StreamingRuns.

(** ** Invariants of a suspended generator *)

Section Respects.

Import Legal_Agent_Interface.

Variable responses_create : nat -> outcome.
Variable random : nat -> Q.
Variables agent_name conv_id text : Py.str.

(** [I] is kept between the yields and gives [J] at the end; requests
    keep it for the attempt numbers in [ok]. *)
Variables I J : world -> Prop.
Variable ok : nat -> Prop.

Hypothesis I_request :
  forall w n, ok n -> I w ->
    I (emit (Request (clock w) n conv_id text agent_name) w).
Hypothesis I_elapse : forall w secs, I w -> I (elapse secs w).
Hypothesis I_backoff : forall w n, I w -> I (backoff_wait random n w).
Hypothesis I_release : forall w, I w -> J (release w).

Lemma on_exception_respects retry attempt e w :
  (forall w', I w' -> respects I J (retry w')) ->
  I w -> respects I J (on_exception random retry attempt e w).
Proof.
  intros Hretry Hw. unfold on_exception.
  destruct (is_rate_limit_error e && (attempt <? MAX_RETRIES_429)%nat).
  - unfold backoff_sleep. destruct (attempt <? 1024)%nat.
    + apply Hretry, I_backoff, Hw.
    + constructor. apply I_release, Hw.
  - constructor. apply I_release, Hw.
Qed.

Lemma for_event_respects retry attempt events ending :
  (forall w', I w' -> respects I J (retry w')) ->
  forall w, I w -> respects I J (for_event random retry attempt events ending w).
Proof.
  intros Hretry. induction events as [|ev events IH]; intros w Hw; cbn [for_event].
  - destruct ending as [e|].
    + apply on_exception_respects; assumption.
    + constructor. apply I_release, Hw.
  - destruct (is_text_delta ev).
    + constructor; [exact Hw | exact IH | exact I_release].
    + apply IH, Hw.
Qed.

Lemma for_attempt_respects range :
  Forall ok range ->
  forall w, I w ->
    respects I J
      (for_attempt responses_create random agent_name conv_id text range w).
Proof.
  induction range as [|attempt range IH]; intros Hok w Hw; cbn [for_attempt].
  - constructor. apply I_release, Hw.
  - inversion Hok as [|? ? Hattempt Hrange]; subst.
    destruct (responses_create (attempts w)) as [latency e | latency events ending].
    + apply on_exception_respects; [exact (IH Hrange)|].
      apply I_elapse, I_request; assumption.
    + apply for_event_respects; [exact (IH Hrange)|].
      apply I_elapse, I_request; assumption.
Qed.

(** A caller that does nothing between two fragments. *)
Lemma drain_respects r : respects I J r -> J (snd (drain r)).
Proof.
  induction 1 as [c w Hw | fragment w resume close Hw _ IH _]; cbn [drain].
  - exact Hw.
  - specialize (IH w Hw). destruct (drain (resume w)) as [[rest c] w'].
    exact IH.
Qed.

Lemma drain_until_respects n r : respects I J r -> J (snd (drain_until n r)).
Proof.
  intros Hr. revert n.
  induction Hr as [c w Hw | fragment w resume close Hw _ IH Hclose];
    intros n; cbn [drain_until].
  - exact Hw.
  - destruct n as [|n]; [apply Hclose, Hw|].
    specialize (IH w Hw n). destruct (drain_until n (resume w)) as [[rest c] w'].
    exact IH.
Qed.

Lemma settle_respects r :
  respects I J r ->
  sound I J (fst (settle r))
  /\ (if holds (fst (settle r)) then I (snd (settle r)) else J (snd (settle r))).
Proof.
  intros [c w Hw | fragment w resume close Hw Hresume Hclose]; cbn.
  - split; [exact Logic.I | exact Hw].
  - split; [split; assumption | exact Hw].
Qed.

End Respects.

(** ** Pools of generators *)

Section Pools.

Import Legal_Agent_Interface.

Lemma holders_app pool g :
  holders (pool ++ [g]) = (holders pool + Nat.b2n (holds g))%nat.
Proof.
  unfold holders. rewrite filter_app, length_app. cbn [filter].
  destruct (holds g); reflexivity.
Qed.

Lemma holders_replace pool i g g' :
  nth_error pool i = Some g ->
  (holders (replace i g' pool) + Nat.b2n (holds g)
   = holders pool + Nat.b2n (holds g'))%nat.
Proof.
  revert i. induction pool as [|g0 pool IH]; intros [|i] H; try discriminate.
  - injection H as ->. unfold holders. cbn [replace filter].
    destruct (holds g), (holds g'); cbn [Datatypes.length Nat.b2n]; lia.
  - cbn [nth_error] in H. specialize (IH i H). unfold holders in *.
    cbn [replace filter]. destruct (holds g0); cbn [Datatypes.length]; lia.
Qed.

Lemma Forall_replace (P : generator -> Prop) pool i g' :
  Forall P pool -> P g' -> Forall P (replace i g' pool).
Proof.
  intros Hpool Hg'. revert i.
  induction Hpool as [|g0 pool Hg0 Hpool IH]; intros [|i]; cbn [replace];
    constructor; auto.
Qed.

Lemma Forall_nth_error (P : generator -> Prop) pool i g :
  Forall P pool -> nth_error pool i = Some g -> P g.
Proof.
  intros Hpool H. apply nth_error_In in H.
  rewrite Forall_forall in Hpool. apply Hpool, H.
Qed.

End Pools.

(** ** The in-flight flag *)

Section InFlight.

Import Legal_Agent_Interface.

Variable responses_create : nat -> outcome.
Variable random : nat -> Q.

Local Abbreviation stream_agent := (stream_agent responses_create random).
Local Abbreviation step := (step responses_create random).
Local Abbreviation exec := (exec responses_create random).

Lemma in_flight_throttle_guard (w : world) :
  in_flight (throttle_guard w) = in_flight w.
Proof.
  unfold throttle_guard. destruct (last_request w) as [last|]; [|reflexivity].
  destruct (Qltb _ _); reflexivity.
Qed.

(** A call that finds the flag free holds it up to its end. *)
Lemma stream_agent_holds agent_name conv_id text (w : world) :
  truthy (in_flight w) = false ->
  respects held released (stream_agent agent_name conv_id text w).
Proof.
  intros Hfree. rewrite (stream_agent_free _ _ _ _ _ _ Hfree).
  apply for_attempt_respects with (ok := fun _ => True).
  - intros w' n _ H. exact H.
  - intros w' secs H. exact H.
  - intros w' n H. exact H.
  - intros w' _. reflexivity.
  - apply Forall_forall. intros n _. exact Logic.I.
  - unfold held. rewrite in_flight_throttle_guard. reflexivity.
Qed.

Lemma held_truthy (w : world) : held w -> truthy (in_flight w) = true.
Proof. unfold held. intros ->. reflexivity. Qed.

Lemma released_truthy (w : world) : released w -> truthy (in_flight w) = false.
Proof. unfold released. intros ->. reflexivity. Qed.

Lemma step_one_holder (P : Prop) (a : action) s :
  one_holder P s -> one_holder P (step a s).
Proof.
  destruct s as [pool w]. intros [Hsound Hcount]. cbn [fst snd] in *.
  destruct a as [agent_name conv_id text | i | i | secs];
    cbn [Legal_Agent_Interface.step].
  - (* g = stream_agent(...) *)
    split; cbn [fst snd].
    + apply Forall_app. split; [exact Hsound | repeat constructor].
    + rewrite holders_app. cbn [holds Nat.b2n]. rewrite Nat.add_0_r. exact Hcount.
  - (* next(g_i) *)
    destruct (nth_error pool i) as [g|] eqn:Hg; [|split; assumption].
    pose proof (Forall_nth_error _ _ _ _ Hsound Hg) as Hsg.
    destruct g as [agent_name conv_id text | resume close |]; cbn [next].
    + destruct (truthy (in_flight w)) eqn:Hflag.
      * rewrite (stream_agent_busy _ _ _ _ _ _ Hflag). cbn [settle].
        pose proof (holders_replace _ _ _ Finished Hg) as Hn.
        cbn [holds Nat.b2n] in Hn. rewrite !Nat.add_0_r in Hn.
        split; cbn [fst snd].
        -- apply Forall_replace; [exact Hsound | exact Logic.I].
        -- rewrite Hn. unfold held in *. cbn [in_flight warning emit].
           rewrite Hflag. exact Hcount.
      * destruct (settle_respects _ _ _ (stream_agent_holds agent_name conv_id
                                           text w Hflag)) as [Hs Hw].
        destruct (settle _) as [g' w']. cbn [fst snd] in *.
        pose proof (holders_replace _ _ _ g' Hg) as Hn. cbn [holds Nat.b2n] in Hn.
        destruct Hcount as [[H0 _] | [_ Hheld]];
          [|apply held_truthy in Hheld; congruence].
        split; cbn [fst snd]; [apply Forall_replace; assumption|].
        destruct (holds g'); cbn [Nat.b2n] in Hn.
        -- right. split; [lia | exact Hw].
        -- left. split; [lia | intros _; apply released_truthy, Hw].
    + pose proof (holders_replace _ _ _ Finished Hg) as Hn1.
      cbn [holds Nat.b2n] in Hn1.
      destruct Hcount as [[H0 _] | [H1 Hheld]]; [lia|].
      destruct Hsg as [Hresume _].
      destruct (settle_respects _ _ _ (Hresume w Hheld)) as [Hs Hw].
      destruct (settle _) as [g' w']. cbn [fst snd] in *.
      pose proof (holders_replace _ _ _ g' Hg) as Hn. cbn [holds Nat.b2n] in Hn.
      split; cbn [fst snd]; [apply Forall_replace; assumption|].
      destruct (holds g'); cbn [Nat.b2n] in Hn.
      * right. split; [lia | exact Hw].
      * left. split; [lia | intros _; apply released_truthy, Hw].
    + pose proof (holders_replace _ _ _ Finished Hg) as Hn.
      cbn [holds Nat.b2n] in Hn. rewrite !Nat.add_0_r in Hn.
      split; cbn [fst snd]; [apply Forall_replace; auto | rewrite Hn; exact Hcount].
  - (* g_i.close() *)
    destruct (nth_error pool i) as [g|] eqn:Hg; [|split; assumption].
    pose proof (Forall_nth_error _ _ _ _ Hsound Hg) as Hsg.
    pose proof (holders_replace _ _ _ Finished Hg) as Hn.
    destruct g as [agent_name conv_id text | resume close |];
      cbn [Legal_Agent_Interface.close holds Nat.b2n] in *;
      (split; cbn [fst snd]; [apply Forall_replace; [exact Hsound | exact Logic.I]|]).
    + rewrite !Nat.add_0_r in Hn. rewrite Hn. exact Hcount.
    + destruct Hcount as [[H0 _] | [H1 Hheld]]; [lia|].
      destruct Hsg as [_ Hclose]. left.
      split; [lia | intros _; apply released_truthy, Hclose, Hheld].
    + rewrite !Nat.add_0_r in Hn. rewrite Hn. exact Hcount.
  - (* time passes *)
    split; assumption.
Qed.

Lemma exec_one_holder (P : Prop) script s :
  one_holder P s -> one_holder P (exec script s).
Proof.
  revert s. induction script as [|a script IH]; intros s Hs; [exact Hs|].
  apply IH, step_one_holder, Hs.
Qed.

Lemma one_holder_start (w : world) :
  one_holder (truthy (in_flight w) = false) ([], w).
Proof. split; [constructor | left; split; [reflexivity | auto]]. Qed.

(** C6.  At every point of a session at most one generator holds the
    in-flight flag.  When the flag is free to begin with: a call that is
    drained ends, by a return or by a raised exception, with the flag
    [False]; so does a call that its caller closes at a [yield]; and
    whatever the calls that are started, resumed, left suspended or closed,
    the flag is set exactly as long as one of them holds it. *)
Theorem in_flight_released script agent_name conv_id text n (w : world) :
  (holders (fst (exec script ([], w))) <= 1)%nat
  /\ (truthy (in_flight w) = false ->
      in_flight (snd (drain (stream_agent agent_name conv_id text w)))
      = Some false
      /\ in_flight (snd (drain_until n (stream_agent agent_name conv_id text w)))
         = Some false
      /\ holders (fst (exec script ([], w)))
         = (if truthy (in_flight (snd (exec script ([], w)))) then 1 else 0)%nat).
Proof.
  destruct (exec_one_holder _ script _ (one_holder_start w)) as [_ Hcount].
  split; [destruct Hcount as [[-> _] | [-> _]]; lia|].
  intros Hfree.
  pose proof (stream_agent_holds agent_name conv_id text w Hfree) as Hholds.
  split; [exact (drain_respects _ _ _ Hholds)|].
  split; [exact (drain_until_respects _ _ n _ Hholds)|].
  destruct Hcount as [[-> Hflag] | [-> Hheld]].
  - rewrite (Hflag Hfree). reflexivity.
  - rewrite (held_truthy _ Hheld). reflexivity.
Qed.

End InFlight.

Section InFlightRuns.

Import Legal_Agent_Interface Scenario.

Lemma in_flight_released_witness :
  (holders (fst (exec (limited 1) random_half overlapping ([], fresh))) <= 1)%nat
  /\ truthy (in_flight fresh) = false
  /\ in_flight
       (snd (drain (stream_agent (limited 1) random_half agent_name conv_id
                      text fresh)))
     = Some false
  /\ in_flight
       (snd (drain_until 0 (stream_agent (limited 1) random_half agent_name
                              conv_id text fresh)))
     = Some false
  /\ holders (fst (exec (limited 1) random_half overlapping ([], fresh)))
     = (if truthy (in_flight (snd (exec (limited 1) random_half overlapping
                                     ([], fresh))))
        then 1 else 0)%nat.
Proof.
  destruct (in_flight_released (limited 1) random_half overlapping agent_name
              conv_id text 0 fresh) as [Hmost Hfree].
  split; [exact Hmost|]. split; [reflexivity|]. apply Hfree. reflexivity.
Defined.

End InFlightRuns.

(** ** Pacing *)

Section Pacing.

Import Legal_Agent_Interface.

Variable responses_create : nat -> outcome.
Variable random : nat -> Q.

Local Abbreviation stream_agent := (stream_agent responses_create random).
Local Abbreviation step := (step responses_create random).
Local Abbreviation exec := (exec responses_create random).

Lemma first_issues_throttle_guard (w : world) :
  first_issues (log (throttle_guard w)) = first_issues (log w).
Proof.
  unfold throttle_guard. destruct (last_request w) as [last|]; [|reflexivity].
  destruct (Qltb _ _); reflexivity.
Qed.

Lemma last_request_throttle_guard (w : world) :
  last_request (throttle_guard w) = Some (clock (throttle_guard w)).
Proof.
  unfold throttle_guard. destruct (last_request w) as [last|]; [|reflexivity].
  destruct (Qltb _ _); reflexivity.
Qed.

(** [throttle_guard] returns the minimum interval after the timestamp it
    finds, or later. *)
Lemma throttle_guard_waits (w : world) (last : Q) :
  last_request w = Some last ->
  apart (clock (throttle_guard w)) last.
Proof.
  intros Hlast. unfold apart, throttle_guard. rewrite Hlast.
  destruct (Qltb (clock w - last) MIN_SECONDS_BETWEEN_REQUESTS) eqn:Hdiff;
    cbn [clock set_last_request sleep elapse emit].
  - lra.
  - unfold Qltb in Hdiff. apply negb_false_iff, Qle_bool_iff in Hdiff. lra.
Qed.

Lemma paced_older (newest : Q) (older : list Q) :
  paced (newest :: older) -> Forall (apart newest) older /\ paced older.
Proof. intros H. inversion H; subst. split; assumption. Qed.

(** The request that opens a call keeps the session throttled. *)
Lemma throttled_first_request agent_name conv_id text (w : world) :
  throttled w ->
  throttled
    (emit (Request (clock (throttle_guard (set_in_flight true w))) 0
             conv_id text agent_name)
       (throttle_guard (set_in_flight true w))).
Proof.
  intros [Hpaced Hlast]. unfold throttled.
  cbn [log emit first_issues last_request].
  rewrite first_issues_throttle_guard, last_request_throttle_guard.
  cbn [log set_in_flight]. split; [|reflexivity].
  constructor; [|exact Hpaced].
  destruct (first_issues (log w)) as [|newest older]; [constructor|].
  pose proof (throttle_guard_waits (set_in_flight true w) newest Hlast) as Hwait.
  destruct (paced_older _ _ Hpaced) as [Holder _].
  constructor; [exact Hwait|].
  apply Forall_forall. intros t Ht. rewrite Forall_forall in Holder.
  specialize (Holder t Ht). unfold apart, MIN_SECONDS_BETWEEN_REQUESTS in *. lra.
Qed.

Lemma throttled_retry agent_name conv_id text (w : world) (n : nat) :
  n <> 0%nat -> throttled w ->
  throttled (emit (Request (clock w) n conv_id text agent_name) w).
Proof.
  intros Hn H. destruct n as [|n]; [contradiction|]. exact H.
Qed.

(** A call keeps the session throttled, whether it finds the flag set or
    not. *)
Lemma stream_agent_throttled agent_name conv_id text (w : world) :
  throttled w ->
  respects throttled throttled (stream_agent agent_name conv_id text w).
Proof.
  intros Hw. destruct (truthy (in_flight w)) eqn:Hflag.
  - rewrite (stream_agent_busy _ _ _ _ _ _ Hflag). constructor. exact Hw.
  - rewrite (stream_agent_free _ _ _ _ _ _ Hflag).
    change (seq 0 (MAX_RETRIES_429 + 1)) with (0%nat :: seq 1 MAX_RETRIES_429).
    cbn [for_attempt].
    assert (forall w', throttled w' ->
              respects throttled throttled
                (for_attempt responses_create random agent_name conv_id text
                   (seq 1 MAX_RETRIES_429) w')) as Hretry.
    { apply for_attempt_respects with (ok := fun n => n <> 0%nat).
      - intros w' n Hn H. apply throttled_retry; assumption.
      - intros w' secs H. exact H.
      - intros w' n H. exact H.
      - intros w' H. exact H.
      - apply Forall_forall. intros n Hn. apply in_seq in Hn. lia. }
    pose proof (throttled_first_request agent_name conv_id text w Hw) as Hfirst.
    destruct (responses_create _) as [latency e | latency events ending].
    + apply on_exception_respects; auto.
    + apply for_event_respects; auto.
Qed.

Lemma step_throttled (a : action) s :
  Forall (sound throttled throttled) (fst s) /\ throttled (snd s) ->
  Forall (sound throttled throttled) (fst (step a s)) /\ throttled (snd (step a s)).
Proof.
  destruct s as [pool w]. cbn [fst snd]. intros [Hsound Hw].
  destruct a as [agent_name conv_id text | i | i | secs];
    cbn [Legal_Agent_Interface.step].
  - split; [|exact Hw]. apply Forall_app. split; [exact Hsound | repeat constructor].
  - destruct (nth_error pool i) as [g|] eqn:Hg; [|split; assumption].
    pose proof (Forall_nth_error _ _ _ _ Hsound Hg) as Hsg.
    assert (exists r, next responses_create random g w = settle r
                      /\ respects throttled throttled r) as [r [-> Hr]].
    { destruct g as [agent_name conv_id text | resume close |]; cbn [next].
      - eexists. split; [reflexivity | apply stream_agent_throttled, Hw].
      - eexists. split; [reflexivity | apply Hsg, Hw].
      - exists (Stop Returned w). split; [reflexivity | constructor; exact Hw]. }
    destruct (settle_respects _ _ _ Hr) as [Hs Hw'].
    destruct (settle r) as [g' w']. cbn [fst snd] in *.
    split; [apply Forall_replace; assumption|].
    destruct (holds g'); exact Hw'.
  - destruct (nth_error pool i) as [g|] eqn:Hg; [|split; assumption].
    pose proof (Forall_nth_error _ _ _ _ Hsound Hg) as Hsg.
    destruct g as [agent_name conv_id text | resume close |];
      cbn [Legal_Agent_Interface.close fst snd];
      (split; [apply Forall_replace; [exact Hsound | exact Logic.I]|]);
      [exact Hw | apply Hsg, Hw | exact Hw].
  - split; assumption.
Qed.

Lemma exec_throttled script s :
  Forall (sound throttled throttled) (fst s) /\ throttled (snd s) ->
  Forall (sound throttled throttled) (fst (exec script s))
  /\ throttled (snd (exec script s)).
Proof.
  revert s. induction script as [|a script IH]; intros s Hs; [exact Hs|].
  apply IH, step_throttled, Hs.
Qed.

(** C2 (amended).  In a session whose requests that open a call have been
    paced so far, whatever calls are then started, resumed, left suspended
    or closed, no two requests that open a call are issued less than
    [MIN_SECONDS_BETWEEN_REQUESTS] apart, and the timestamp of the session
    is the instant at which the newest of them was issued. *)
Theorem first_requests_paced script (w : world) :
  throttled w ->
  paced (first_issues (log (snd (exec script ([], w)))))
  /\ match first_issues (log (snd (exec script ([], w)))) with
     | [] => True
     | newest :: _ => last_request (snd (exec script ([], w))) = Some newest
     end.
Proof.
  intros Hw. apply (exec_throttled script ([], w)). split; [constructor | exact Hw].
Qed.

End Pacing.

Section PacingRuns.

Import Legal_Agent_Interface Scenario.

Lemma first_requests_paced_witness :
  throttled fresh
  /\ paced (first_issues
              (log (snd (exec (limited 1) random_half in_a_row ([], fresh)))))
  /\ match first_issues
             (log (snd (exec (limited 1) random_half in_a_row ([], fresh)))) with
     | [] => True
     | newest :: _ =>
         last_request (snd (exec (limited 1) random_half in_a_row ([], fresh)))
         = Some newest
     end.
Proof.
  assert (throttled fresh) as Hfresh by (split; [constructor | exact Logic.I]).
  split; [exact Hfresh|].
  apply (first_requests_paced (limited 1) random_half in_a_row fresh Hfresh).
Defined.

(** C2, as stated, fails.  The service rejects the first attempt after
    0.1 s and [random.random()] returns 0.5: the request is issued again
    0.9 s after the first one, and the timestamp of the session stays at
    the instant of the first one. *)
Lemma retry_is_not_paced :
  let w' := snd (drain (stream_agent (limited 1) random_half agent_name conv_id
                          text fresh)) in
  Forall2 Qeq (issues (log w')) [0.9; 0]
  /\ ~ paced (issues (log w'))
  /\ last_request w' = Some 0.
Proof.
  cbn. split; [repeat constructor; reflexivity|]. split; [|reflexivity].
  intros H. apply paced_older in H. destruct H as [H _].
  inversion H as [|? ? Hapart _]; subst.
  unfold apart, MIN_SECONDS_BETWEEN_REQUESTS in Hapart.
  revert Hapart. apply Qlt_not_le. reflexivity.
Qed.

End PacingRuns.

(** * Further properties of the code *)

(** ** Truncation of the document *)

Section Truncation.

Import Legal_Agent_Interface.

Lemma len_slice_to_short (text : Py.str) :
  (Py.len text > MAX_DOC_CHARS)%Z ->
  Py.len (Py.slice_to MAX_DOC_CHARS text) = MAX_DOC_CHARS.
Proof.
  unfold Py.len, Py.slice_to, MAX_DOC_CHARS. cbn [Z.leb Z.compare].
  intros H. rewrite length_firstn. lia.
Qed.

Lemma truncate_text_long (text : Py.str) :
  (Py.len text > MAX_DOC_CHARS)%Z ->
  truncate_text text
  = firstn (Z.to_nat MAX_DOC_CHARS) text ++ Py.newline :: Py.lit "[TRUNCATED]".
Proof.
  intros H. unfold truncate_text.
  replace (Py.len text >? MAX_DOC_CHARS)%Z with true
    by (symmetry; apply Z.gtb_lt; lia).
  reflexivity.
Qed.

Lemma truncate_text_short (text : Py.str) :
  (Py.len text <= MAX_DOC_CHARS)%Z -> truncate_text text = text.
Proof.
  intros H. unfold truncate_text.
  replace (Py.len text >? MAX_DOC_CHARS)%Z with false; [reflexivity|].
  symmetry. rewrite Z.gtb_ltb. apply Z.ltb_ge. exact H.
Qed.

Lemma len_truncate_text (text : Py.str) :
  Py.len (truncate_text text)
  = (if (Py.len text >? MAX_DOC_CHARS)%Z then MAX_DOC_CHARS + 12
     else Py.len text)%Z.
Proof.
  destruct (Py.len text >? MAX_DOC_CHARS)%Z eqn:Hlong.
  - apply Z.gtb_lt in Hlong.
    rewrite (truncate_text_long text) by lia.
    unfold Py.len in *. rewrite length_app, length_firstn.
    change (List.length (Py.newline :: Py.lit "[TRUNCATED]")) with 12%nat.
    unfold MAX_DOC_CHARS in *. lia.
  - rewrite Z.gtb_ltb in Hlong. apply Z.ltb_ge in Hlong.
    rewrite (truncate_text_short text Hlong). reflexivity.
Qed.

Lemma slice_truncate_text (text : Py.str) :
  Py.slice_to MAX_DOC_CHARS (truncate_text text)
  = Py.slice_to MAX_DOC_CHARS text.
Proof.
  destruct (Py.len text >? MAX_DOC_CHARS)%Z eqn:Hlong.
  - apply Z.gtb_lt in Hlong.
    rewrite (truncate_text_long text) by lia.
    assert (List.length (firstn (Z.to_nat MAX_DOC_CHARS) text)
            = Z.to_nat MAX_DOC_CHARS) as Hlen.
    { rewrite length_firstn. unfold Py.len in Hlong. lia. }
    unfold Py.slice_to. change (0 <=? MAX_DOC_CHARS)%Z with true. cbv iota.
    rewrite firstn_app, Hlen, Nat.sub_diag, firstn_O, app_nil_r.
    rewrite firstn_firstn, Nat.min_id. reflexivity.
  - rewrite Z.gtb_ltb in Hlong. apply Z.ltb_ge in Hlong.
    rewrite (truncate_text_short text Hlong). reflexivity.
Qed.

(** X1.  The result of [truncate_text] is never longer than
    [MAX_DOC_CHARS + 12]: a text within the limit keeps its length, and a
    longer one comes back with exactly [MAX_DOC_CHARS + 12] characters,
    more than the limit.  In both cases the first [MAX_DOC_CHARS]
    characters of the text are kept as they are. *)
Theorem truncate_text_length (text : Py.str) :
  Py.len (truncate_text text)
  = (if (Py.len text >? MAX_DOC_CHARS)%Z then MAX_DOC_CHARS + 12
     else Py.len text)%Z
  /\ (Py.len (truncate_text text) <= MAX_DOC_CHARS + 12)%Z
  /\ Py.slice_to MAX_DOC_CHARS (truncate_text text)
     = Py.slice_to MAX_DOC_CHARS text.
Proof.
  split; [apply len_truncate_text|]. split; [|apply slice_truncate_text].
  rewrite len_truncate_text.
  destruct (Py.len text >? MAX_DOC_CHARS)%Z eqn:Hlong; [lia|].
  rewrite Z.gtb_ltb in Hlong. apply Z.ltb_ge in Hlong. lia.
Qed.

(** X2.  [truncate_text] is idempotent, although what it returns for a
    long text is itself longer than the limit: truncating it again cuts
    the marker and puts it back. *)
Theorem truncate_text_idempotent (text : Py.str) :
  truncate_text (truncate_text text) = truncate_text text.
Proof.
  pose proof (len_truncate_text text) as Hlen.
  pose proof (slice_truncate_text text) as Hprefix.
  destruct (Py.len text >? MAX_DOC_CHARS)%Z eqn:Hlong.
  - apply Z.gtb_lt in Hlong.
    rewrite (truncate_text_long (truncate_text text)) by (rewrite Hlen; lia).
    rewrite (truncate_text_long text) at 2 by lia.
    f_equal. revert Hprefix. unfold Py.slice_to.
    change (0 <=? MAX_DOC_CHARS)%Z with true. cbv iota. intros ->. reflexivity.
  - rewrite Z.gtb_ltb in Hlong. apply Z.ltb_ge in Hlong.
    rewrite !(truncate_text_short text Hlong). reflexivity.
Qed.

End Truncation.

(** ** Agent lookup *)

Section AgentLookup.

Import Legal_Agent_Interface.

Lemma is_named_iff (wanted : Py.str) (a : agent) :
  is_named wanted a = true <-> name a = Some wanted.
Proof.
  unfold is_named. destruct (name a) as [n|].
  - rewrite str_eqb_eq. split; [intros ->; reflexivity | intros [= ->]; reflexivity].
  - split; discriminate.
Qed.

Lemma first_named_found (wanted : Py.str) agents ending (a : agent) :
  first_named wanted agents ending = Py.Ok (Some a)
  <-> exists before after,
        agents = before ++ a :: after
        /\ name a = Some wanted
        /\ forall b, In b before -> name b <> Some wanted.
Proof.
  induction agents as [|b agents IH]; cbn [first_named].
  - split.
    + destruct ending; discriminate.
    + intros [[|? ?] [after [H _]]]; discriminate.
  - destruct (is_named wanted b) eqn:Hb.
    + apply is_named_iff in Hb. split.
      * intros [= ->]. exists [], agents.
        split; [reflexivity|]. split; [exact Hb|]. intros ? [].
      * intros [[|b' before] [after [H [Ha Hbefore]]]].
        -- injection H as ->. reflexivity.
        -- injection H as -> _. exfalso. apply (Hbefore b'); [left; auto|].
           exact Hb.
    + assert (name b <> Some wanted) as Hb'
          by (intros H; apply is_named_iff in H; congruence).
      rewrite IH. split.
      * intros [before [after [-> [Ha Hbefore]]]].
        exists (b :: before), after. repeat split; auto.
        intros b' [<- | Hin]; auto.
      * intros [[|b' before] [after [H [Ha Hbefore]]]].
        -- injection H as ->. contradiction.
        -- injection H as -> ->. exists before, after. repeat split; auto.
           intros b'' Hin. apply Hbefore. right. exact Hin.
Qed.

Lemma first_named_missing (wanted : Py.str) agents ending :
  (forall b, In b agents -> name b <> Some wanted)
  <-> first_named wanted agents ending
      = match ending with
        | None => Py.Ok None
        | Some e => Py.Raise e
        end.
Proof.
  induction agents as [|b agents IH]; cbn [first_named].
  - split; [reflexivity | intros _ ? []].
  - destruct (is_named wanted b) eqn:Hb.
    + apply is_named_iff in Hb. split.
      * intros H. exfalso. exact (H b (or_introl eq_refl) Hb).
      * destruct ending; discriminate.
    + assert (name b <> Some wanted) as Hb'
          by (intros H; apply is_named_iff in H; congruence).
      rewrite <- IH. split.
      * intros H b' Hin. apply H. right. exact Hin.
      * intros H b' [<- | Hin]; auto.
Qed.

Lemma first_named_cases (wanted : Py.str) agents ending :
  (exists a, first_named wanted agents ending = Py.Ok (Some a))
  \/ ((forall b, In b agents -> name b <> Some wanted)
      /\ first_named wanted agents ending
         = match ending with
           | None => Py.Ok None
           | Some e => Py.Raise e
           end).
Proof.
  induction agents as [|b agents IH]; cbn [first_named].
  - right. split; [intros ? [] | reflexivity].
  - destruct (is_named wanted b) eqn:Hb.
    + left. exists b. reflexivity.
    + destruct IH as [IH | [Hnone Heq]]; [left; exact IH|].
      right. split; [|exact Heq].
      intros b' [<- | Hin]; [|auto].
      intros H. apply is_named_iff in H. congruence.
Qed.

(** X3.  [get_agent_by_name] reads the listing up to the first agent that
    bears the name and returns it, agents without a name being passed
    over and a failure of the listing further on never being met.  It
    raises exactly when no agent it is given bears the name:
    [ValueError("Agent not found")] when the listing came to its end, and
    the exception of the listing when it broke. *)
Theorem get_agent_by_name_first (agents_ops : listing) (wanted : Py.str) :
  (forall a,
     get_agent_by_name agents_ops wanted = Py.Ok a
     <-> exists before after,
           listed agents_ops = before ++ a :: after
           /\ name a = Some wanted
           /\ forall b, In b before -> name b <> Some wanted)
  /\ (forall e,
        get_agent_by_name agents_ops wanted = Py.Raise e
        <-> (forall b, In b (listed agents_ops) -> name b <> Some wanted)
            /\ e = match broken agents_ops with
                   | None => Exception (Py.lit "Agent not found")
                   | Some e' => e'
                   end).
Proof.
  unfold get_agent_by_name. destruct agents_ops as [agents ending].
  cbn [listed broken]. split.
  - intros a. rewrite <- (first_named_found wanted agents ending a).
    destruct (first_named wanted agents ending) as [[b|]|e'].
    + split; intros [= ->]; reflexivity.
    + split; discriminate.
    + split; discriminate.
  - intros e. split.
    + intros H.
      destruct (first_named_cases wanted agents ending)
        as [[a Ha] | [Hnone Heq]].
      * rewrite Ha in H. discriminate.
      * split; [exact Hnone|]. rewrite Heq in H.
        destruct ending; injection H as <-; reflexivity.
    + intros [Hnone ->].
      apply (first_named_missing wanted agents ending) in Hnone.
      rewrite Hnone. destruct ending; reflexivity.
Qed.

(** On a listing that breaks after its first page, a name of that page
    is found and another name meets the failure. *)
Lemma get_agent_by_name_reads_lazily :
  get_agent_by_name Scenario.project_agents (Py.lit "Legal-Agent2")
  = Py.Ok (Agent (Some (Py.lit "Legal-Agent2")) (Py.lit "asst_3"))
  /\ get_agent_by_name Scenario.project_agents (Py.lit "Nobody")
     = Py.Raise (Exception (Py.lit "503 Service Unavailable")).
Proof.
  split; vm_compute; reflexivity.
Qed.

End AgentLookup.

(** ** File extraction *)

Section FileExtraction.

Import Legal_Agent_Interface.

Variable decode_utf8_ignore : list Byte.byte -> Py.str.

Local Abbreviation extract_text := (extract_text decode_utf8_ignore).

Lemma endswith_spec (suffix s : Py.str) :
  Py.endswith suffix s = true <-> exists pre, s = pre ++ suffix.
Proof.
  unfold Py.endswith. rewrite startswith_spec. split.
  - intros [post H]. exists (rev post).
    rewrite <- (rev_involutive s), H, rev_app_distr, rev_involutive. reflexivity.
  - intros [pre ->]. exists (rev pre). apply rev_app_distr.
Qed.

Lemma endswith_lower_spec (suffix s : Py.str) :
  Forall (fun b => ~ (65 <= b <= 90)%N) suffix ->
  Py.endswith suffix (Py.lower s) = true <-> Py.ends_ignoring_case suffix s.
Proof.
  intros Hsuffix. rewrite endswith_spec. unfold Py.ends_ignoring_case, Py.lower.
  split.
  - intros [pre' H]. apply map_eq_app in H.
    destruct H as [pre [mid [-> [_ H]]]].
    exists pre, mid. split; [reflexivity | apply lower_matches; auto].
  - intros [pre [mid [-> H]]]. exists (List.map Py.lower_char pre).
    rewrite map_app. f_equal. apply (lower_matches mid suffix Hsuffix). exact H.
Qed.

Lemma no_capital_in (s : string) :
  forallb (fun b => negb ((65 <=? b)%N && (b <=? 90)%N)) (Py.lit s) = true ->
  Forall (fun b => ~ (65 <= b <= 90)%N) (Py.lit s).
Proof.
  rewrite forallb_forall, Forall_forall. intros H b Hb [H1 H2].
  specialize (H b Hb). apply N.leb_le in H1, H2. rewrite H1, H2 in H.
  discriminate.
Qed.


(** X4.  A file whose name ends in ".txt" or ".md", in any mix of upper
    and lower case, is read by decoding its bytes: the call does not
    raise, and the PDF reader is not asked, whatever the bytes are. *)
Theorem extract_text_of_text_file PdfReader (uploaded : uploaded_file) :
  Py.ends_ignoring_case (Py.lit ".txt") (file_name uploaded)
  \/ Py.ends_ignoring_case (Py.lit ".md") (file_name uploaded) ->
  extract_text PdfReader uploaded
  = Py.Ok (decode_utf8_ignore (getvalue uploaded)).
Proof.
  intros H. unfold Legal_Agent_Interface.extract_text.
  replace (Py.endswith (Py.lit ".txt") (Py.lower (file_name uploaded))
           || Py.endswith (Py.lit ".md") (Py.lower (file_name uploaded)))
    with true; [reflexivity|].
  symmetry. apply orb_true_iff.
  destruct H as [H | H]; [left | right];
    (apply endswith_lower_spec; [apply no_capital_in; reflexivity | exact H]).
Qed.

(** X5.  A file whose name ends in none of ".txt", ".md" and ".pdf", the
    case being ignored, gives the empty string: no error is raised, and
    neither the bytes nor the PDF reader are looked at. *)
Theorem extract_text_of_other_file PdfReader (uploaded : uploaded_file) :
  ~ Py.ends_ignoring_case (Py.lit ".txt") (file_name uploaded) ->
  ~ Py.ends_ignoring_case (Py.lit ".md") (file_name uploaded) ->
  ~ Py.ends_ignoring_case (Py.lit ".pdf") (file_name uploaded) ->
  extract_text PdfReader uploaded = Py.Ok [].
Proof.
  intros Htxt Hmd Hpdf. unfold Legal_Agent_Interface.extract_text.
  rewrite <- endswith_lower_spec in Htxt, Hmd, Hpdf
    by (apply no_capital_in; reflexivity).
  apply not_true_is_false in Htxt, Hmd, Hpdf. rewrite Htxt, Hmd, Hpdf.
  reflexivity.
Qed.


End FileExtraction.

Section FileExtractionRuns.

Import Legal_Agent_Interface Scenario.

Local Ltac same_letters :=
  cbn;
  repeat first
    [ apply Forall2_nil
    | apply Forall2_cons;
      [first [left; reflexivity | right; left; split; [lia | reflexivity]]|] ].

Lemma extract_text_of_text_file_witness :
  extract_text latin1 (pdf_of 3) notes_file = Py.Ok (Py.lit "Hi").
Proof.
  apply (extract_text_of_text_file latin1 (pdf_of 3) notes_file).
  left. exists (Py.lit "Notes"), (Py.lit ".TXT"). split; [reflexivity|].
  same_letters.
Defined.

Lemma not_ends_ignoring_case (suffix s : Py.str) :
  Forall (fun b => ~ (65 <= b <= 90)%N) suffix ->
  Py.endswith suffix (Py.lower s) = false ->
  ~ Py.ends_ignoring_case suffix s.
Proof.
  intros Hsuffix H Hends. apply (endswith_lower_spec suffix s Hsuffix) in Hends.
  congruence.
Qed.

Lemma extract_text_of_other_file_witness :
  extract_text latin1 (pdf_of 3) image_file = Py.Ok [].
Proof.
  apply (extract_text_of_other_file latin1 (pdf_of 3) image_file);
    (apply not_ends_ignoring_case; [apply no_capital_in|]; reflexivity).
Defined.


End FileExtractionRuns.

(** ** The retry loop, whatever the service answers *)

Section RetryLoop.

Import Legal_Agent_Interface.

Variable responses_create : nat -> outcome.
Variable random : nat -> Q.
Variables agent_name conv_id text : Py.str.

Local Abbreviation for_attempt :=
  (for_attempt responses_create random agent_name conv_id text).
Local Abbreviation stream_agent :=
  (stream_agent responses_create random agent_name conv_id text).
Local Abbreviation request w a :=
  (emit (Request (clock w) a conv_id text agent_name) w).

(** An attempt whose error is retried hands over to the next one. *)
Lemma drain_retry_step (a : nat) (range : list nat) (w : world) (e : exn) :
  failure (responses_create (attempts w)) = Some e ->
  is_rate_limit_error e && (a <? MAX_RETRIES_429)%nat = true ->
  drain (for_attempt (a :: range) w) =
  let '(rest, c, w') :=
    drain (for_attempt range
             (backoff_wait random a
                (elapse (duration (responses_create (attempts w)))
                   (request w a)))) in
  (delivered (responses_create (attempts w)) ++ rest, c, w').
Proof.
  intros He Hretry. cbn [Legal_Agent_Interface.for_attempt].
  destruct (responses_create (attempts w)) as [latency e0 | latency events ending];
    cbn [failure] in He; cbn [delivered duration].
  - injection He as ->. rewrite (on_exception_retry random _ _ _ _ Hretry).
    destruct (drain _) as [[rest c] w']. reflexivity.
  - subst ending.
    rewrite drain_for_event, (on_exception_retry random _ _ _ _ Hretry).
    reflexivity.
Qed.

Lemma failure_None (o : outcome) :
  failure o = None ->
  exists latency events, o = Streams latency events None.
Proof.
  destruct o as [latency e | latency events ending]; cbn; [discriminate|].
  intros ->. exists latency, events. reflexivity.
Qed.

(** The course of the loop from attempt [a] on, [len] attempts being
    left. *)
Lemma drain_for_attempt_trace (len a : nat) (w : world) :
  (a + len = MAX_RETRIES_429 + 1)%nat -> (0 < len)%nat ->
  exists n fragments c w',
    drain (for_attempt (seq a len) w) = (fragments, c, w')
    /\ (1 <= n <= len)%nat
    /\ attempts w' = (attempts w + n)%nat
    /\ draws w' = (draws w + (n - 1))%nat
    /\ (forall i, (i < n - 1)%nat ->
          rate_limited (responses_create (attempts w + i)))
    /\ fragments
       = flat_map (fun i => delivered (responses_create i)) (seq (attempts w) n)
    /\ match c with
       | Returned =>
           failure (responses_create (attempts w + (n - 1))) = None
       | Raised e =>
           failure (responses_create (attempts w + (n - 1))) = Some e
           /\ (is_rate_limit_error e = false \/ n = len)
       end.
Proof.
  revert a w. induction len as [|len IH]; intros a w Ha Hlen; [lia|].
  cbn [seq].
  destruct (failure (responses_create (attempts w))) as [e|] eqn:Hfail.
  - destruct (is_rate_limit_error e && (a <? MAX_RETRIES_429)%nat) eqn:Hretry.
    + rewrite (drain_retry_step a _ w e Hfail Hretry).
      apply andb_true_iff in Hretry. destruct Hretry as [Hrate Hlt].
      apply Nat.ltb_lt in Hlt.
      set (w1 := backoff_wait random a _).
      assert (attempts w1 = S (attempts w)) as Hw1 by reflexivity.
      assert (draws w1 = S (draws w)) as Hd1 by reflexivity.
      destruct (IH (S a) w1) as [n [fragments [c [w' H]]]]; [lia | lia |].
      destruct H as [Hdrain [Hn [Hattempts [Hdraws [Hearlier [Hfragments Hend]]]]]].
      exists (S n), (delivered (responses_create (attempts w)) ++ fragments), c, w'.
      rewrite Hdrain. split; [reflexivity|]. split; [lia|].
      split; [lia|]. split; [lia|]. split; [|split].
      * intros i Hi. destruct i as [|i].
        -- rewrite Nat.add_0_r. exists e. split; assumption.
        -- replace (attempts w + S i)%nat with (attempts w1 + i)%nat by lia.
           apply Hearlier. lia.
      * cbn [seq flat_map]. rewrite Hfragments, Hw1. reflexivity.
      * replace (attempts w + (S n - 1))%nat with (attempts w1 + (n - 1))%nat
          by lia.
        destruct c as [|e']; [exact Hend|].
        destruct Hend as [He' [Hnot | Hlast]]; (split; [exact He'|]);
          [left; exact Hnot | right; lia].
    + rewrite (drain_fatal _ _ _ _ _ a _ w e Hfail Hretry).
      exists 1%nat. eexists _, _, _. split; [reflexivity|].
      split; [lia|].
      split; [change (S (attempts w) = (attempts w + 1)%nat); lia|].
      split; [change (draws w = (draws w + (1 - 1))%nat); lia|].
      split; [intros i Hi; lia|]. split.
      * cbn [seq flat_map]. rewrite app_nil_r. reflexivity.
      * cbn [Nat.sub]. rewrite Nat.add_0_r. split; [exact Hfail|].
        apply andb_false_iff in Hretry. destruct Hretry as [Hnot | Hlast].
        -- left. exact Hnot.
        -- right. apply Nat.ltb_ge in Hlast. lia.
  - destruct (failure_None _ Hfail) as [latency [events Hanswer]].
    rewrite (drain_success _ _ _ _ _ a _ w latency events Hanswer).
    exists 1%nat. eexists _, _, _. split; [reflexivity|].
    split; [lia|].
    split; [change (S (attempts w) = (attempts w + 1)%nat); lia|].
    split; [change (draws w = (draws w + (1 - 1))%nat); lia|].
    split; [intros i Hi; lia|]. split.
    + cbn [seq flat_map]. rewrite Hanswer. cbn [delivered].
      rewrite app_nil_r. reflexivity.
    + cbn [Nat.sub]. rewrite Nat.add_0_r. exact Hfail.
Qed.

(** The same for a call that finds the in-flight flag free. *)
Lemma drain_stream_agent_trace (w : world) :
  truthy (in_flight w) = false ->
  exists n fragments c w',
    drain (stream_agent w) = (fragments, c, w')
    /\ (1 <= n <= MAX_RETRIES_429 + 1)%nat
    /\ attempts w' = (attempts w + n)%nat
    /\ draws w' = (draws w + (n - 1))%nat
    /\ (forall i, (i < n - 1)%nat ->
          rate_limited (responses_create (attempts w + i)))
    /\ fragments
       = flat_map (fun i => delivered (responses_create i)) (seq (attempts w) n)
    /\ match c with
       | Returned =>
           failure (responses_create (attempts w + (n - 1))) = None
       | Raised e =>
           failure (responses_create (attempts w + (n - 1))) = Some e
           /\ (is_rate_limit_error e = false \/ n = (MAX_RETRIES_429 + 1)%nat)
       end.
Proof.
  intros Hfree. rewrite (stream_agent_free _ _ _ _ _ _ Hfree).
  set (w0 := throttle_guard (set_in_flight true w)).
  assert (attempts w0 = attempts w) as Hw0
    by exact (attempts_throttle_guard (set_in_flight true w)).
  assert (draws w0 = draws w) as Hd0.
  { unfold w0, throttle_guard. cbn [last_request set_in_flight].
    destruct (last_request w) as [last|]; [|reflexivity].
    destruct (Qltb _ _); reflexivity. }
  destruct (drain_for_attempt_trace (MAX_RETRIES_429 + 1) 0 w0)
    as [n [fragments [c [w' H]]]]; [reflexivity | unfold MAX_RETRIES_429; lia |].
  rewrite Hw0, Hd0 in H. exists n, fragments, c, w'. exact H.
Qed.

(** X7.  Whatever the service answers, a call that finds the in-flight
    flag free makes at least one network attempt and at most
    [MAX_RETRIES_429 + 1], and draws one random number for each attempt
    but the last. *)
Theorem attempts_bounded (w : world) :
  truthy (in_flight w) = false ->
  let w' := snd (drain (stream_agent w)) in
  (attempts w + 1 <= attempts w' <= attempts w + (MAX_RETRIES_429 + 1))%nat
  /\ (draws w' + 1 = draws w + (attempts w' - attempts w))%nat.
Proof.
  intros Hfree.
  destruct (drain_stream_agent_trace w Hfree) as [n [fragments [c [w' H]]]].
  destruct H as [Hdrain [Hn [Hattempts [Hdraws _]]]].
  rewrite Hdrain. cbn [snd]. lia.
Qed.

(** X8.  Whatever the service answers, a call that finds the flag free
    ends in one of three ways, told by its last attempt: it returns, and
    that attempt streamed to its end; or it raises the error of that
    attempt, which is not a rate-limit error; or it raises a rate-limit
    error, and that attempt was the last one allowed.  Every attempt before
    the last one failed with a rate-limit error. *)
Theorem call_ends_with_last_attempt (w : world) :
  truthy (in_flight w) = false ->
  let '(_, c, w') := drain (stream_agent w) in
  (attempts w < attempts w')%nat
  /\ (forall i, (attempts w <= i < attempts w' - 1)%nat ->
        rate_limited (responses_create i))
  /\ match c with
     | Returned => failure (responses_create (attempts w' - 1)) = None
     | Raised e =>
         failure (responses_create (attempts w' - 1)) = Some e
         /\ (is_rate_limit_error e = false
             \/ attempts w' = (attempts w + (MAX_RETRIES_429 + 1))%nat)
     end.
Proof.
  intros Hfree.
  destruct (drain_stream_agent_trace w Hfree) as [n [fragments [c [w' H]]]].
  destruct H as [Hdrain [Hn [Hattempts [_ [Hearlier [_ Hend]]]]]].
  rewrite Hdrain. split; [lia|]. split.
  - intros i Hi. replace i with (attempts w + (i - attempts w))%nat by lia.
    apply Hearlier. lia.
  - replace (attempts w' - 1)%nat with (attempts w + (n - 1))%nat by lia.
    destruct c as [|e]; [exact Hend|].
    destruct Hend as [He [Hnot | Hlast]]; (split; [exact He|]);
      [left; exact Hnot | right; lia].
Qed.

(** X9.  Whatever the service answers, the caller of a call that finds the
    flag free receives, in order, the fragments of every attempt of the
    call, the failed ones included: what a stream delivered before it
    broke is not taken back when the request is issued again. *)
Theorem caller_receives_every_attempt (w : world) :
  truthy (in_flight w) = false ->
  let '(fragments, _, w') := drain (stream_agent w) in
  fragments
  = flat_map (fun i => delivered (responses_create i))
             (seq (attempts w) (attempts w' - attempts w)).
Proof.
  intros Hfree.
  destruct (drain_stream_agent_trace w Hfree) as [n [fragments [c [w' H]]]].
  destruct H as [Hdrain [_ [Hattempts [_ [_ [Hfragments _]]]]]].
  rewrite Hdrain, Hfragments. f_equal. f_equal. lia.
Qed.

End RetryLoop.

(** ** Time spent waiting *)

Section Waiting.

Import Legal_Agent_Interface.

Variable responses_create : nat -> outcome.
Variable random : nat -> Q.
Variables agent_name conv_id text : Py.str.

Local Abbreviation for_attempt :=
  (for_attempt responses_create random agent_name conv_id text).
Local Abbreviation stream_agent :=
  (stream_agent responses_create random agent_name conv_id text).

Lemma Qltb_true (a b : Q) : Qltb a b = true -> a < b.
Proof.
  unfold Qltb. intros H. apply negb_true_iff in H.
  apply Qnot_le_lt. intros Hle. apply Qle_bool_iff in Hle. congruence.
Qed.

Lemma Qltb_false (a b : Q) : Qltb a b = false -> b <= a.
Proof.
  unfold Qltb. intros H. apply negb_false_iff in H. apply Qle_bool_iff, H.
Qed.

Lemma slept_throttle_guard (w : world) :
  slept (log (throttle_guard w)) == slept (log w) + pacing_wait w.
Proof.
  unfold throttle_guard, pacing_wait.
  destruct (last_request w) as [last|]; [|cbn; lra].
  destruct (Qltb (clock w - last) MIN_SECONDS_BETWEEN_REQUESTS) eqn:Hdiff;
    cbn [log set_last_request sleep elapse emit slept].
  - apply Qltb_true in Hdiff. rewrite Q.max_r by lra. lra.
  - apply Qltb_false in Hdiff. rewrite Q.max_l by lra. lra.
Qed.

(** X10.  [throttle_guard] pauses for exactly what is left of the minimum
    interval since the timestamp of the session, and not at all when the
    interval has passed or the session has no timestamp yet.  It calls
    [time.sleep] once at most, never with zero or a negative number; the
    new timestamp is the instant at which the pause ends. *)
Theorem throttle_guard_pause (w : world) :
  clock (throttle_guard w) == clock w + pacing_wait w
  /\ slept (log (throttle_guard w)) == slept (log w) + pacing_wait w
  /\ (log (throttle_guard w) = log w
      \/ exists secs, 0 < secs /\ log (throttle_guard w) = Sleep secs :: log w)
  /\ last_request (throttle_guard w) = Some (clock (throttle_guard w))
  /\ in_flight (throttle_guard w) = in_flight w
  /\ draws (throttle_guard w) = draws w.
Proof.
  unfold throttle_guard, pacing_wait.
  destruct (last_request w) as [last|].
  - destruct (Qltb (clock w - last) MIN_SECONDS_BETWEEN_REQUESTS) eqn:Hdiff;
      cbn [clock log last_request in_flight draws set_last_request sleep elapse
             emit slept].
    + apply Qltb_true in Hdiff.
      assert (0 <= last + MIN_SECONDS_BETWEEN_REQUESTS - clock w) as Hpos by lra.
      rewrite (Q.max_r _ _ Hpos).
      split; [lra|]. split; [lra|].
      split; [right; eexists; split; [|reflexivity]; lra|]. repeat split.
    + apply Qltb_false in Hdiff.
      assert (last + MIN_SECONDS_BETWEEN_REQUESTS - clock w <= 0) as Hneg by lra.
      rewrite (Q.max_l _ _ Hneg).
      split; [lra|]. split; [lra|]. split; [left; reflexivity|]. repeat split.
  - cbn [clock log last_request in_flight draws set_last_request slept].
    split; [lra|]. split; [lra|]. split; [left; reflexivity|]. repeat split.
Qed.

Lemma backoff_budget_total :
  backoff_budget (seq 0 (MAX_RETRIES_429 + 1)) == 56.
Proof. vm_compute. reflexivity. Qed.

Hypothesis random_range : forall i, 0 <= random i /\ random i < 1.

Lemma slept_backoff_wait (n : nat) (w : world) :
  slept (log (backoff_wait random n w)) <= slept (log w) + longest_backoff n.
Proof.
  destruct (random_range (draws w)) as [H0 H1].
  destruct (backoff_delay_range n _ H0 H1) as [_ [Hhi _]].
  unfold longest_backoff. cbn [backoff_wait sleep elapse emit draw log slept].
  cbv zeta in Hhi. lra.
Qed.

Lemma slept_for_attempt (range : list nat) (w : world) :
  slept (log (snd (drain (for_attempt range w))))
  <= slept (log w) + backoff_budget range.
Proof.
  revert w. induction range as [|a range IH]; intros w; cbn [backoff_budget].
  - cbn. lra.
  - assert (0 <= backoff_budget range) as Hrest.
    { clear. induction range as [|n range IH]; cbn [backoff_budget]; [lra|].
      destruct (n <? MAX_RETRIES_429)%nat; [|lra].
      destruct (backoff_base_range n) as [H0 _]. unfold longest_backoff. lra. }
    assert (0 <= longest_backoff a) as Ha.
    { destruct (backoff_base_range a) as [H0 _]. unfold longest_backoff. lra. }
    destruct (failure (responses_create (attempts w))) as [e|] eqn:Hfail.
    + destruct (is_rate_limit_error e && (a <? MAX_RETRIES_429)%nat) eqn:Hretry.
      * rewrite (drain_retry_step _ _ _ _ _ a range w e Hfail Hretry).
        apply andb_true_iff in Hretry. destruct Hretry as [_ Hlt]. rewrite Hlt.
        match goal with
        | |- context [drain (for_attempt range ?w1)] =>
            specialize (IH w1);
            pose proof (slept_backoff_wait a
                          (elapse (duration (responses_create (attempts w)))
                             (emit (Request (clock w) a conv_id text agent_name)
                                w))) as Hsleep;
            destruct (drain (for_attempt range w1)) as [[rest c] w']
        end.
        cbn [snd] in *. cbn [log elapse emit slept] in Hsleep. lra.
      * rewrite (drain_fatal _ _ _ _ _ a range w e Hfail Hretry).
        cbn [snd log release set_in_flight elapse emit slept].
        destruct (a <? MAX_RETRIES_429)%nat; lra.
    + destruct (failure_None _ Hfail) as [latency [events Hanswer]].
      rewrite (drain_success _ _ _ _ _ a range w latency events Hanswer).
      cbn [snd log release set_in_flight elapse emit slept].
      destruct (a <? MAX_RETRIES_429)%nat; lra.
Qed.

(** X11.  With [random.random()] in [0, 1), and whatever the service
    answers, a call that finds the flag free sleeps for its pacing pause
    and for 56 seconds of backoff at most, all its retries together. *)
Theorem call_sleeps_at_most (w : world) :
  truthy (in_flight w) = false ->
  slept (log (snd (drain (stream_agent w))))
  <= slept (log w) + pacing_wait w + 56.
Proof.
  intros Hfree. rewrite (stream_agent_free _ _ _ _ _ _ Hfree).
  pose proof (slept_for_attempt (seq 0 (MAX_RETRIES_429 + 1))
                (throttle_guard (set_in_flight true w))) as Hloop.
  pose proof (slept_throttle_guard (set_in_flight true w)) as Hpause.
  change (pacing_wait (set_in_flight true w)) with (pacing_wait w) in Hpause.
  change (log (set_in_flight true w)) with (log w) in Hpause.
  rewrite backoff_budget_total in Hloop. lra.
Qed.

End Waiting.

(** ** A flag that nobody holds *)

Section StuckFlag.

Import Legal_Agent_Interface.

Variable responses_create : nat -> outcome.
Variable random : nat -> Q.

Local Abbreviation step := (step responses_create random).
Local Abbreviation exec := (exec responses_create random).

Lemma step_stuck (w0 : world) (a : action) s :
  truthy (in_flight w0) = true ->
  Forall idle (fst s) /\ in_flight (snd s) = in_flight w0
  /\ last_request (snd s) = last_request w0
  /\ issues (log (snd s)) = issues (log w0) ->
  Forall idle (fst (step a s)) /\ in_flight (snd (step a s)) = in_flight w0
  /\ last_request (snd (step a s)) = last_request w0
  /\ issues (log (snd (step a s))) = issues (log w0).
Proof.
  intros Hset. destruct s as [pool w]. cbn [fst snd].
  intros [Hpool [Hflag [Hlast Hlog]]].
  destruct a as [agent_name conv_id text | i | i | secs];
    cbn [Legal_Agent_Interface.step].
  - cbn [fst snd]. split; [|auto].
    apply Forall_app. split; [exact Hpool | repeat constructor].
  - destruct (nth_error pool i) as [g|] eqn:Hg; [|cbn [fst snd]; auto].
    pose proof (Forall_nth_error _ _ _ _ Hpool Hg) as Hidle.
    destruct g as [agent_name conv_id text | resume close |];
      [| contradiction |]; cbn [next].
    + rewrite stream_agent_busy by (rewrite Hflag; exact Hset).
      cbn [settle fst snd]. split; [apply Forall_replace; [exact Hpool | exact I]|].
      auto.
    + cbn [fst snd]. split; [apply Forall_replace; [exact Hpool | exact I]|].
      auto.
  - destruct (nth_error pool i) as [g|] eqn:Hg; [|cbn [fst snd]; auto].
    pose proof (Forall_nth_error _ _ _ _ Hpool Hg) as Hidle.
    destruct g as [agent_name conv_id text | resume close |];
      [| contradiction |]; cbn [Legal_Agent_Interface.close fst snd];
      (split; [apply Forall_replace; [exact Hpool | exact I]|]); auto.
  - cbn [fst snd]. auto.
Qed.

(** X12.  Nothing but the [finally] clause of a call that holds the flag
    clears it.  In a session where the flag is set and no generator holds
    it, every call is refused, however many are made and however long one
    waits: no request is issued any more, and the flag and the timestamp
    stay as they are. *)
Theorem stuck_flag_stays_set script (w : world) :
  truthy (in_flight w) = true ->
  in_flight (snd (exec script ([], w))) = in_flight w
  /\ issues (log (snd (exec script ([], w)))) = issues (log w)
  /\ attempts (snd (exec script ([], w))) = attempts w
  /\ last_request (snd (exec script ([], w))) = last_request w
  /\ holders (fst (exec script ([], w))) = 0%nat.
Proof.
  intros Hset.
  assert (forall s,
             Forall idle (fst s) /\ in_flight (snd s) = in_flight w
             /\ last_request (snd s) = last_request w
             /\ issues (log (snd s)) = issues (log w) ->
             Forall idle (fst (exec script s))
             /\ in_flight (snd (exec script s)) = in_flight w
             /\ last_request (snd (exec script s)) = last_request w
             /\ issues (log (snd (exec script s))) = issues (log w)) as Hexec.
  { induction script as [|a script IH]; intros s Hs; [exact Hs|].
    apply IH, (step_stuck w a s Hset), Hs. }
  destruct (Hexec ([], w)) as [Hpool [Hflag [Hlast Hlog]]];
    [split; [constructor | auto]|].
  split; [exact Hflag|]. split; [exact Hlog|]. split; [|split; [exact Hlast|]].
  - assert (forall l, List.length (issues l) = List.length (filter is_request l))
      as Hcount.
    { induction l as [|[msg | secs | t n c i a] l IH]; cbn; auto. }
    unfold attempts. rewrite <- !Hcount, Hlog. reflexivity.
  - unfold holders. induction Hpool as [|g pool Hg _ IH]; [reflexivity|].
    cbn [filter]. destruct g; [exact IH | contradiction | exact IH].
Qed.

End StuckFlag.

Section RetryLoopRuns.

Import Legal_Agent_Interface Scenario.

Lemma attempts_bounded_witness :
  let w' := snd (drain (stream_agent interrupted random_half agent_name conv_id
                          text fresh)) in
  (attempts fresh + 1 <= attempts w' <= attempts fresh + (MAX_RETRIES_429 + 1))%nat
  /\ (draws w' + 1 = draws fresh + (attempts w' - attempts fresh))%nat.
Proof.
  apply (attempts_bounded interrupted random_half agent_name conv_id text fresh).
  reflexivity.
Defined.

Lemma call_ends_with_last_attempt_witness :
  let '(_, c, w') :=
    drain (stream_agent always_limited random_half agent_name conv_id text
             fresh) in
  (attempts fresh < attempts w')%nat
  /\ (forall i, (attempts fresh <= i < attempts w' - 1)%nat ->
        rate_limited (always_limited i))
  /\ match c with
     | Returned => failure (always_limited (attempts w' - 1)) = None
     | Raised e =>
         failure (always_limited (attempts w' - 1)) = Some e
         /\ (is_rate_limit_error e = false
             \/ attempts w' = (attempts fresh + (MAX_RETRIES_429 + 1))%nat)
     end.
Proof.
  apply (call_ends_with_last_attempt always_limited random_half agent_name
           conv_id text fresh).
  reflexivity.
Defined.

Lemma caller_receives_every_attempt_witness :
  let '(fragments, _, w') :=
    drain (stream_agent interrupted random_half agent_name conv_id text fresh) in
  fragments
  = flat_map (fun i => delivered (interrupted i))
             (seq (attempts fresh) (attempts w' - attempts fresh)).
Proof.
  apply (caller_receives_every_attempt interrupted random_half agent_name
           conv_id text fresh).
  reflexivity.
Defined.

Lemma call_sleeps_at_most_witness :
  slept (log (snd (drain (stream_agent always_limited random_half agent_name
                            conv_id text fresh))))
  <= slept (log fresh) + pacing_wait fresh + 56.
Proof.
  apply (call_sleeps_at_most always_limited random_half agent_name conv_id text).
  - intros i. unfold random_half. split; [discriminate | reflexivity].
  - reflexivity.
Defined.

Lemma stuck_flag_stays_set_witness :
  in_flight (snd (exec (limited 0) random_half in_a_row ([], busy)))
  = in_flight busy
  /\ issues (log (snd (exec (limited 0) random_half in_a_row ([], busy))))
     = issues (log busy)
  /\ attempts (snd (exec (limited 0) random_half in_a_row ([], busy)))
     = attempts busy
  /\ last_request (snd (exec (limited 0) random_half in_a_row ([], busy)))
     = last_request busy
  /\ holders (fst (exec (limited 0) random_half in_a_row ([], busy))) = 0%nat.
Proof.
  apply (stuck_flag_stays_set (limited 0) random_half in_a_row busy).
  reflexivity.
Defined.

End RetryLoopRuns.

(** ** The page *)

Section PageFacts.

Import Legal_Agent_Interface.

Variable decode_utf8_ignore : list Byte.byte -> Py.str.
Variable PdfReader : list Byte.byte -> Py.result exn (list page).
Variable responses_create : nat -> outcome.
Variable random : nat -> Q.
Variable store_document : nat -> option exn.
Variable conversations_create : nat -> Py.result exn Py.str.
Variable agent_name : Py.str.

Local Abbreviation stream_agent :=
  (stream_agent responses_create random agent_name).
Local Abbreviation sidebar_upload :=
  (sidebar_upload decode_utf8_ignore PdfReader store_document).
Local Abbreviation chat := (chat responses_create random agent_name).
Local Abbreviation pass :=
  (pass decode_utf8_ignore PdfReader responses_create random store_document
        conversations_create agent_name).
Local Abbreviation interaction :=
  (interaction decode_utf8_ignore PdfReader responses_create random
               store_document conversations_create agent_name).
Local Abbreviation interactions :=
  (interactions decode_utf8_ignore PdfReader responses_create random
                store_document conversations_create agent_name).

(** What is sent for a prompt. *)
Local Abbreviation user_input typed :=
  (Py.slice_to 1500 typed ++ Py.newline :: Py.lit "Answer concisely.").

Lemma chat_unfold (typed : Py.str) (s : session) :
  Py.nonempty typed = true ->
  chat (Some typed) s
  = let '(chunks, c, w) :=
      drain (stream_agent (conversation_id s) (user_input typed) (state s)) in
    Session w
      (messages s
       ++ [Message user (Py.slice_to 1500 typed);
           Message assistant
             match c with
             | Returned => List.concat chunks
             | Raised e => Py.lit "Error: " ++ str e
             end])
      (conversation_id s) (doc_sent s) (documents s) (conversations s).
Proof.
  intros H. unfold Legal_Agent_Interface.chat. rewrite H.
  destruct (drain _) as [[chunks c] w]. rewrite <- app_assoc. reflexivity.
Qed.

(** X13.  A prompt typed while the in-flight flag is free adds two
    messages to the history, whatever the service answers: the prompt, cut
    to 1500 characters, and the answer.  The answer is told by the last
    attempt of the call: when it streamed to its end, the concatenation of
    what all the attempts delivered; otherwise "Error: " and the text of
    its error, the fragments already shown being dropped.  The flag is
    [False] afterwards. *)
Theorem chat_turn (typed : Py.str) (s : session) :
  Py.nonempty typed = true ->
  truthy (in_flight (state s)) = false ->
  let s' := chat (Some typed) s in
  let first := attempts (state s) in
  let n := (attempts (state s') - first)%nat in
  (1 <= n <= MAX_RETRIES_429 + 1)%nat
  /\ in_flight (state s') = Some false
  /\ messages s'
     = messages s
       ++ [Message user (Py.slice_to 1500 typed);
           Message assistant
             match failure (responses_create (first + (n - 1))) with
             | None =>
                 List.concat
                   (flat_map (fun i => delivered (responses_create i))
                             (seq first n))
             | Some e => Py.lit "Error: " ++ str e
             end].
Proof.
  intros Htyped Hfree. cbv zeta. rewrite (chat_unfold typed s Htyped).
  destruct (drain_stream_agent_trace responses_create random agent_name
              (conversation_id s) (user_input typed) (state s) Hfree)
    as [n [fragments [c [w' H]]]].
  destruct H as [Hdrain [Hn [Hattempts [_ [_ [Hfragments Hend]]]]]].
  pose proof (drain_respects _ _ _
                (stream_agent_holds responses_create random agent_name
                   (conversation_id s) (user_input typed) (state s) Hfree))
    as Hflag.
  rewrite Hdrain in *. cbn [state messages snd] in *.
  replace (attempts w' - attempts (state s))%nat with n by lia.
  split; [exact Hn|]. split; [exact Hflag|].
  destruct c as [|e].
  - rewrite Hend, Hfragments. reflexivity.
  - destruct Hend as [He _]. rewrite He. reflexivity.
Qed.

(** X14.  A prompt typed while the in-flight flag is set still adds two
    messages to the history: the prompt and an empty answer.  No request
    is issued and nothing but the warning happens. *)
Theorem chat_turn_refused (typed : Py.str) (s : session) :
  Py.nonempty typed = true ->
  truthy (in_flight (state s)) = true ->
  messages (chat (Some typed) s)
  = messages s ++ [Message user (Py.slice_to 1500 typed); Message assistant []]
  /\ log (state (chat (Some typed) s))
     = Warning (Py.lit "Request already running") :: log (state s)
  /\ in_flight (state (chat (Some typed) s)) = in_flight (state s).
Proof.
  intros Htyped Hbusy. rewrite (chat_unfold typed s Htyped).
  rewrite (stream_agent_busy _ _ _ _ _ _ Hbusy). cbn. repeat split.
Qed.

End PageFacts.

(** ** What a session keeps from one interaction to the next *)

Section PageInvariants.

Import Legal_Agent_Interface.

Variable decode_utf8_ignore : list Byte.byte -> Py.str.
Variable PdfReader : list Byte.byte -> Py.result exn (list page).
Variable responses_create : nat -> outcome.
Variable random : nat -> Q.
Variable store_document : nat -> option exn.
Variable conversations_create : nat -> Py.result exn Py.str.
Variable agent_name : Py.str.

Local Abbreviation stream_agent :=
  (stream_agent responses_create random agent_name).
Local Abbreviation sidebar_upload :=
  (sidebar_upload decode_utf8_ignore PdfReader store_document).
Local Abbreviation chat := (chat responses_create random agent_name).
Local Abbreviation pass :=
  (pass decode_utf8_ignore PdfReader responses_create random store_document
        conversations_create agent_name).
Local Abbreviation interaction :=
  (interaction decode_utf8_ignore PdfReader responses_create random
               store_document conversations_create agent_name).
Local Abbreviation interactions :=
  (interactions decode_utf8_ignore PdfReader responses_create random
                store_document conversations_create agent_name).

(** The documents the service accepted, plus one if the session may still
    send one. *)
Local Abbreviation allowance s :=
  (accepted (documents s) + (if doc_sent s then 0 else 1))%nat.

Local Abbreviation documents_within s :=
  (Forall (fun d : Py.str * Py.str * bool => (Py.len (snd (fst d)) <= 12032)%Z)
          (documents s)).

(** A property of sessions that every pass of the script keeps is kept by
    every sequence of interactions. *)
Lemma kept_interactions (P : session -> Prop) :
  (forall ws s, P s -> P (fst (pass ws s))) ->
  forall wss s, P s -> P (interactions wss s).
Proof.
  intros Hkept wss. unfold Legal_Agent_Interface.interactions.
  induction wss as [|ws wss IH]; intros s Hs; [exact Hs|].
  cbn [fold_left]. apply IH. unfold Legal_Agent_Interface.interaction.
  pose proof (Hkept ws s Hs) as H1.
  destruct (pass ws s) as [s1 [| |e]]; cbn [fst] in *; auto.
Qed.

Lemma sidebar_upload_keeps (file : option uploaded_file) (s : session) :
  let s' := fst (sidebar_upload file s) in
  state s' = state s /\ messages s' = messages s
  /\ conversation_id s' = conversation_id s
  /\ (allowance s' = allowance s /\ (doc_sent s = true -> doc_sent s' = true))
  /\ (documents_within s -> documents_within s').
Proof.
  unfold Legal_Agent_Interface.sidebar_upload.
  destruct file as [f|]; [|cbn; repeat split; auto].
  destruct (extract_text decode_utf8_ignore PdfReader f) as [extracted|e];
    [|cbn; repeat split; auto].
  destruct (Py.nonempty (truncate_text extracted) && negb (doc_sent s)) eqn:Hsend;
    [|cbn; repeat split; auto].
  apply andb_true_iff in Hsend. destruct Hsend as [_ Hnot].
  apply negb_true_iff in Hnot.
  assert (Py.len (Py.lit "Reference document:" ++ Py.newline
                    :: truncate_text extracted) <= 12032)%Z as Hlen.
  { pose proof (len_truncate_text extracted) as H.
    unfold Py.len in *. rewrite length_app. cbn [Datatypes.length].
    change (Datatypes.length (Py.lit "Reference document:")) with 19%nat.
    unfold MAX_DOC_CHARS in H.
    destruct (Z.of_nat (Datatypes.length extracted) >? 12000)%Z eqn:Hlong;
      [lia|]. rewrite Z.gtb_ltb in Hlong. apply Z.ltb_ge in Hlong. lia. }
  destruct (store_document _) as [e|]; cbn [fst state messages conversation_id
                                            documents doc_sent];
    unfold accepted; cbn [filter snd]; rewrite Hnot;
    (split; [reflexivity|]); (split; [reflexivity|]); (split; [reflexivity|]);
    (split; [split; [cbn [Datatypes.length]; lia | auto]|]);
    intros H; (constructor; [exact Hlen | exact H]).
Qed.

Lemma chat_keeps (typed : option Py.str) (s : session) :
  let s' := chat typed s in
  conversation_id s' = conversation_id s /\ doc_sent s' = doc_sent s
  /\ documents s' = documents s
  /\ (paired (messages s) -> paired (messages s'))
  /\ (inputs_within 1518 (log (state s))
      -> inputs_within 1518 (log (state s'))).
Proof.
  cbv zeta. unfold Legal_Agent_Interface.chat.
  destruct typed as [typed|]; [|auto 6].
  destruct (Py.nonempty typed); [|auto 6].
  set (input := Py.slice_to 1500 typed ++ Py.newline :: Py.lit "Answer concisely.").
  assert (Py.len input <= 1518)%Z as Hinput.
  { unfold input, Py.len, Py.slice_to. cbn [Z.leb Z.compare].
    rewrite length_app, length_firstn. cbn [Datatypes.length].
    change (Datatypes.length (Py.lit "Answer concisely.")) with 17%nat. lia. }
  assert (forall w, inputs_within 1518 (log w) ->
                    inputs_within 1518
                      (log (snd (drain (stream_agent (conversation_id s) input w)))))
    as Hlog.
  { intros w Hw.
    apply (drain_respects (fun w => inputs_within 1518 (log w))
                          (fun w => inputs_within 1518 (log w))).
    destruct (truthy (in_flight w)) eqn:Hflag.
    - rewrite (stream_agent_busy _ _ _ _ _ _ Hflag). constructor.
      constructor; [exact Logic.I | exact Hw].
    - rewrite (stream_agent_free _ _ _ _ _ _ Hflag).
      apply for_attempt_respects with (ok := fun _ => True).
      + intros w' n _ H. constructor; [exact Hinput | exact H].
      + intros w' secs H. exact H.
      + intros w' n H. constructor; [exact Logic.I | exact H].
      + intros w' H. exact H.
      + apply Forall_forall. intros n _. exact Logic.I.
      + unfold throttle_guard. cbn [last_request set_in_flight].
        destruct (last_request w) as [last|]; [|exact Hw].
        destruct (Qltb _ _); [|exact Hw].
        constructor; [exact Logic.I | exact Hw]. }
  specialize (Hlog (state s)).
  destruct (drain _) as [[chunks c] w]. cbn [snd] in Hlog.
  cbn [conversation_id doc_sent documents messages state].
  repeat split; [|exact Hlog].
  intros Hpaired. rewrite <- app_assoc. apply paired_turn. exact Hpaired.
Qed.

Lemma pass_keeps (ws : widgets) (s : session) :
  let s' := fst (pass ws s) in
  (paired (messages s) -> paired (messages s'))
  /\ (inputs_within 1518 (log (state s)) -> inputs_within 1518 (log (state s')))
  /\ (documents_within s -> documents_within s')
  /\ (new_conversation ws = false ->
      allowance s' = allowance s /\ conversation_id s' = conversation_id s
      /\ (doc_sent s = true -> doc_sent s' = true)).
Proof.
  cbv zeta. unfold Legal_Agent_Interface.pass.
  pose proof (sidebar_upload_keeps (uploaded ws) s) as Hside. cbv zeta in Hside.
  destruct (sidebar_upload (uploaded ws) s) as [s1 [e|]]; cbn [fst] in *;
    destruct Hside as [Hstate [Hmessages [Hconv [[Hallow Hsent] Hdocs]]]].
  - rewrite Hstate, Hmessages, Hconv. repeat split; auto.
  - destruct (clear_chat ws).
    + cbn [fst messages state documents doc_sent conversation_id].
      rewrite Hstate. repeat split; auto. constructor.
    + destruct (new_conversation ws).
      * destruct (conversations_create _) as [id|e];
          cbn [fst messages state documents doc_sent conversation_id].
        -- rewrite Hstate. repeat split; auto; try discriminate. constructor.
        -- rewrite Hstate, Hmessages. repeat split; auto; discriminate.
      * cbn [fst].
        destruct (chat_keeps (prompt ws) s1) as [Hc [Hd [Hdoc [Hp Hl]]]].
        rewrite Hc, Hd, Hdoc. rewrite <- Hstate, <- Hmessages.
        repeat split; auto.
Qed.


(** X16.  Whatever the user types and uploads, no request carries more
    than it may: the input of a streamed request is the prompt cut to 1500
    characters and the 18 of the suffix, the input of a request that
    stores a document is the 20 characters of its heading and a text of
    [MAX_DOC_CHARS + 12] characters at most. *)
Theorem inputs_stay_bounded (wss : list widgets) (s : session) :
  inputs_within 1518 (log (state s)) ->
  Forall (fun d => (Py.len (snd (fst d)) <= 12032)%Z) (documents s) ->
  inputs_within 1518 (log (state (interactions wss s)))
  /\ Forall (fun d => (Py.len (snd (fst d)) <= 12032)%Z)
            (documents (interactions wss s)).
Proof.
  intros Hlog Hdocs.
  apply (kept_interactions
           (fun s => inputs_within 1518 (log (state s)) /\ documents_within s));
    [|split; assumption].
  intros ws s0 [H1 H2]. destruct (pass_keeps ws s0) as [_ [Hl [Hd _]]]. auto.
Qed.


End PageInvariants.

Section PageRuns.

Import Legal_Agent_Interface Scenario.

Lemma chat_turn_witness :
  let s' := chat interrupted random_half agent_name
                 (Some (Py.lit "What does article 5 say?")) opening in
  let first := attempts (state opening) in
  let n := (attempts (state s') - first)%nat in
  (1 <= n <= MAX_RETRIES_429 + 1)%nat
  /\ in_flight (state s') = Some false
  /\ messages s'
     = messages opening
       ++ [Message user (Py.slice_to 1500 (Py.lit "What does article 5 say?"));
           Message assistant
             match failure (interrupted (first + (n - 1))) with
             | None =>
                 List.concat
                   (flat_map (fun i => delivered (interrupted i)) (seq first n))
             | Some e => Py.lit "Error: " ++ str e
             end].
Proof.
  apply (chat_turn interrupted random_half agent_name
           (Py.lit "What does article 5 say?") opening); reflexivity.
Defined.

Lemma chat_turn_refused_witness :
  messages (chat (limited 0) random_half agent_name (Some (Py.lit "Hi")) wedged)
  = messages wedged
    ++ [Message user (Py.slice_to 1500 (Py.lit "Hi")); Message assistant []]
  /\ log (state (chat (limited 0) random_half agent_name (Some (Py.lit "Hi"))
                   wedged))
     = Warning (Py.lit "Request already running") :: log (state wedged)
  /\ in_flight (state (chat (limited 0) random_half agent_name
                         (Some (Py.lit "Hi")) wedged))
     = in_flight (state wedged).
Proof.
  apply (chat_turn_refused (limited 0) random_half agent_name (Py.lit "Hi")
           wedged); reflexivity.
Defined.


Lemma inputs_stay_bounded_witness :
  inputs_within 1518
    (log (state (interactions latin1 (pdf_of 3) (limited 1) random_half
                   store_flaky new_ids agent_name visit opening)))
  /\ Forall (fun d => (Py.len (snd (fst d)) <= 12032)%Z)
            (documents (interactions latin1 (pdf_of 3) (limited 1) random_half
                          store_flaky new_ids agent_name visit opening)).
Proof.
  apply (inputs_stay_bounded latin1 (pdf_of 3) (limited 1) random_half
           store_flaky new_ids agent_name visit opening); constructor.
Defined.


(** The visit, run: the first request that stores the document is
    rejected and ends that run before the question is looked at; the
    second run stores it and answers; the history is then cleared and the
    last question answered. *)
Example visit_run :
  let s := interactions latin1 (pdf_of 3) (limited 1) random_half store_flaky
                        new_ids agent_name visit opening in
  List.map snd (documents s) = [true; false]
  /\ doc_sent s = true
  /\ List.map role_of (messages s) = [user; assistant]
  /\ List.map content (messages s)
     = [Py.lit "What does article 5 say?"; Py.lit "Article 5"].
Proof. vm_compute. repeat split. Qed.

End PageRuns.

(** ** The routers *)

Section Routers.

Import KenAgent_Draft_workflow.

Variables thread response error : Type.
Variable get_response :
  agent -> Py.str -> thread -> Py.result error response * thread.

Local Abbreviation route := (route thread response error get_response).
Local Abbreviation main := (main thread response error get_response).

(** X18.  [route] hands every query, as it is, to the Arabic agent or to
    the English agent: to the Arabic one exactly when the query holds a
    character of U+0600..U+06FF.  The translation agent is never asked:
    its branch cannot be reached. *)
Theorem route_never_translates (query : Py.str) (t : thread) :
  exists a,
    a <> translation_agent
    /\ route query t = get_response a query t
    /\ (a = arabic_agent <-> Py.has_arabic query).
Proof.
  unfold KenAgent_Draft_workflow.route, detect_language.
  pose proof (any_between_spec query) as H.
  destruct (Py.any (Py.between 1536%N 1791%N) query).
  - exists arabic_agent. split; [discriminate|]. split; [reflexivity|].
    split; [intros _; apply H; reflexivity | reflexivity].
  - exists english_agent. split; [discriminate|]. split; [reflexivity|].
    split; [discriminate|]. intros Ha. apply H in Ha. discriminate.
Qed.

(** X19.  The chat loop stops at the first line that is exactly "exit":
    what comes after it is never read, so that the loop does not meet the
    end of the input, and it prints one answer at most for each line before
    it.  Without such a line the loop never ends by [break]: it ends at
    the [EOFError] of [input] or at an exception of an agent. *)
Theorem main_stops_at_exit (before after stdin : list Py.str) (t : thread) :
  main (before ++ Py.lit "exit" :: after) t = main (before ++ [Py.lit "exit"]) t
  /\ snd (fst (main (before ++ Py.lit "exit" :: after) t)) <> EndOfInput
  /\ (List.length (fst (fst (main (before ++ Py.lit "exit" :: after) t)))
      <= List.length before)%nat
  /\ (snd (fst (main stdin t)) = Exited -> In (Py.lit "exit") stdin).
Proof.
  split; [|split; [|split]].
  - revert t. induction before as [|q before IH]; intros t; cbn [app main].
    + reflexivity.
    + destruct (Py.str_eqb q (Py.lit "exit")); [reflexivity|].
      destruct (route q t) as [[r|e] t']; [|reflexivity].
      rewrite IH. reflexivity.
  - revert t. induction before as [|q before IH]; intros t; cbn [app main].
    + cbn. discriminate.
    + destruct (Py.str_eqb q (Py.lit "exit")); [cbn; discriminate|].
      destruct (route q t) as [[r|e] t']; [|cbn; discriminate].
      specialize (IH t'). destruct (main _ t') as [[printed c] t''].
      exact IH.
  - revert t. induction before as [|q before IH]; intros t; cbn [app main].
    + cbn. lia.
    + destruct (Py.str_eqb q (Py.lit "exit")); [cbn; lia|].
      destruct (route q t) as [[r|e] t']; [|cbn; lia].
      specialize (IH t'). destruct (main _ t') as [[printed c] t''].
      cbn in *. lia.
  - revert t. induction stdin as [|q stdin IH]; intros t; cbn [main].
    + cbn. discriminate.
    + destruct (Py.str_eqb q (Py.lit "exit")) eqn:Hq.
      * intros _. left. apply str_eqb_eq in Hq. congruence.
      * destruct (route q t) as [[r|e] t']; [|cbn; discriminate].
        specialize (IH t'). destruct (main stdin t') as [[printed c] t''].
        cbn in *. intros Hc. right. exact (IH Hc).
Qed.

End Routers.

(** ** The router with translation *)

Section TranslatingRouter.

Import KenAgent_Draft_workflow_Translation.

Variables world response : Type.
Variable plugin_translate :
  Py.str -> Py.str -> Py.str -> world -> Py.result error value * world.
Variable get_response :
  agent -> value -> world -> Py.result error response * world.
Variable str : response -> Py.str.

Local Abbreviation route :=
  (route world response plugin_translate get_response str).
Local Abbreviation main :=
  (main world response plugin_translate get_response str).

(** X20.  The knowledge base being Arabic, [route] asks the Arabic agent
    and never the English one.  A query with a character of
    U+0600..U+06FF goes to it as it is, and the text of its answer comes
    back untranslated, without a call of the translation.  Any other
    query is taken for English: it is translated from "en" to "ar", what
    the translation returns is given to the agent, and the text of the
    answer is translated from "ar" to "en"; an exception of one of the
    three calls ends the route there. *)
Theorem route_translates_around_arabic (query : Py.str) (w : world) :
  (Py.has_arabic query ->
   route query w
   = match get_response arabic_agent (VStr query) w with
     | (Py.Ok answer, w1) => (Py.Ok (VStr (str answer)), w1)
     | (Py.Raise e, w1) => (Py.Raise e, w1)
     end)
  /\ (~ Py.has_arabic query ->
      route query w
      = match plugin_translate query (Py.lit "en") (Py.lit "ar") w with
        | (Py.Raise e, w1) => (Py.Raise e, w1)
        | (Py.Ok working_query, w1) =>
            match get_response arabic_agent working_query w1 with
            | (Py.Raise e, w2) => (Py.Raise e, w2)
            | (Py.Ok answer, w2) =>
                plugin_translate (str answer) (Py.lit "ar") (Py.lit "en") w2
            end
        end).
Proof.
  unfold KenAgent_Draft_workflow_Translation.route, detect_language.
  pose proof (any_between_spec query) as H.
  destruct (Py.any (Py.between 1536%N 1791%N) query).
  - split; [intros _ | intros Hn; exfalso; apply Hn, H; reflexivity].
    change (Py.str_eqb KB_LANGUAGE (Py.lit "arabic")) with true. cbv iota.
    change (negb (Py.str_eqb (Py.lit "ar") (Py.lit "ar"))) with false.
    change (Py.str_eqb (Py.lit "ar") (Py.lit "ar")) with true. cbv iota.
    destruct (get_response arabic_agent (VStr query) w) as [[answer|e] w1];
      reflexivity.
  - split; [intros Ha; apply H in Ha; discriminate | intros _].
    change (Py.str_eqb KB_LANGUAGE (Py.lit "arabic")) with true. cbv iota.
    change (negb (Py.str_eqb (Py.lit "en") (Py.lit "ar"))) with true.
    change (Py.str_eqb (Py.lit "ar") (Py.lit "ar")) with true. cbv iota.
    reflexivity.
Qed.

(** X21.  The chat loop of the script with translation stops at the first
    line that is exactly "exit" and reads nothing after it; without such a
    line it never ends by [break]. *)
Theorem translating_main_stops_at_exit (before after stdin : list Py.str)
        (w : world) :
  main (before ++ Py.lit "exit" :: after) w = main (before ++ [Py.lit "exit"]) w
  /\ (List.length (fst (fst (main (before ++ Py.lit "exit" :: after) w)))
      <= List.length before)%nat
  /\ (snd (fst (main stdin w)) = None -> In (Py.lit "exit") stdin).
Proof.
  split; [|split].
  - revert w. induction before as [|q before IH]; intros w; cbn [app main].
    + reflexivity.
    + destruct (Py.str_eqb q (Py.lit "exit")); [reflexivity|].
      destruct (route q w) as [[r|e] w']; [|reflexivity].
      rewrite IH. reflexivity.
  - revert w. induction before as [|q before IH]; intros w; cbn [app main].
    + cbn. lia.
    + destruct (Py.str_eqb q (Py.lit "exit")); [cbn; lia|].
      destruct (route q w) as [[r|e] w']; [|cbn; lia].
      specialize (IH w'). destruct (main _ w') as [[printed c] w''].
      cbn in *. lia.
  - revert w. induction stdin as [|q stdin IH]; intros w; cbn [main].
    + cbn. discriminate.
    + destruct (Py.str_eqb q (Py.lit "exit")) eqn:Hq.
      * intros _. left. apply str_eqb_eq in Hq. congruence.
      * destruct (route q w) as [[r|e] w']; [|cbn; discriminate].
        specialize (IH w'). destruct (main stdin w') as [[printed c] w''].
        cbn in *. intros Hc. right. exact (IH Hc).
Qed.

End TranslatingRouter.

(** ** The call of the translation service *)

Section TranslationCall.

Import KenAgent_Draft_workflow_Translation.

Variable post : translation_request -> posted.

Local Abbreviation translate_text := (translate_text post).

Lemma first_item_Ok (v x : value) :
  first_item v = Py.Ok x ->
  (exists rest, v = VList (x :: rest))
  \/ (exists c rest, v = VStr (c :: rest) /\ x = VStr [c]).
Proof.
  destruct v as [| b | n | q | [|c s] | [|y items] | items]; cbn;
    try discriminate; intros [= <-].
  - right. exists c, s. split; reflexivity.
  - left. exists items. reflexivity.
Qed.

Lemma item_Ok (key : Py.str) (v x : value) :
  item key v = Py.Ok x ->
  exists items, v = VDict items /\ lookup key items = Some x.
Proof.
  destruct v as [| b | n | q | s | l | items]; cbn; try discriminate.
  destruct (lookup key items) as [y|] eqn:Hy; [|discriminate].
  intros [= <-]. exists items. split; [reflexivity | exact Hy].
Qed.

(** X22.  [translate_text] returns a value exactly when the service
    answers with a status outside 400..599 and a body of the shape
    [[{"translations": [{"text": v, ...}, ...], ...}, ...]]; it then
    returns that [v], of the first translation of the first element.  An
    error status raises [HTTPError] whatever the body holds, and every
    other answer raises. *)
Theorem translate_text_returns (text from_lang to_lang deployment : Py.str)
        (v : value) :
  (translate_text text from_lang to_lang deployment = Py.Ok v
   <-> exists status d0 more0 t0 more1,
         post (TranslationRequest text from_lang to_lang deployment)
         = Response status (Py.Ok (VList (VDict d0 :: more0)))
         /\ ~ (400 <= status < 600)%Z
         /\ lookup (Py.lit "translations") d0 = Some (VList (VDict t0 :: more1))
         /\ lookup (Py.lit "text") t0 = Some v)
  /\ (forall status json,
        post (TranslationRequest text from_lang to_lang deployment)
        = Response status json ->
        (400 <= status < 600)%Z ->
        translate_text text from_lang to_lang deployment
        = Py.Raise (HTTPError status)).
Proof.
  unfold KenAgent_Draft_workflow_Translation.translate_text. split; [split|].
  - destruct (post _) as [e | status [data | e]]; try discriminate.
    + destruct ((400 <=? status)%Z && (status <? 600)%Z) eqn:Hstatus;
        [discriminate|].
      destruct (first_item data) as [d0|e] eqn:H0; [|discriminate].
      destruct (item (Py.lit "translations") d0) as [ts|e] eqn:H1; [|discriminate].
      destruct (first_item ts) as [t0|e] eqn:H2; [|discriminate].
      intros H3.
      apply item_Ok in H1, H3.
      destruct H1 as [items0 [-> Hts]], H3 as [items1 [-> Hv]].
      apply first_item_Ok in H0, H2.
      destruct H0 as [[more0 ->] | [c [rest [_ Hbad]]]]; [|discriminate].
      destruct H2 as [[more1 ->] | [c [rest [_ Hbad]]]]; [|discriminate].
      exists status, items0, more0, items1, more1.
      split; [reflexivity|]. split; [|split; assumption].
      apply andb_false_iff in Hstatus. intros [Hlo Hhi].
      destruct Hstatus as [H | H]; [apply Z.leb_gt in H | apply Z.ltb_ge in H];
        lia.
    + destruct ((400 <=? status)%Z && (status <? 600)%Z); discriminate.
  - intros [status [d0 [more0 [t0 [more1 [Hpost [Hstatus [Hts Hv]]]]]]]].
    rewrite Hpost.
    replace ((400 <=? status)%Z && (status <? 600)%Z) with false.
    + cbn [first_item item]. rewrite Hts. cbn [first_item item]. rewrite Hv.
      reflexivity.
    + symmetry. apply andb_false_iff.
      destruct (Z.leb_spec 400 status); [|left; reflexivity].
      right. apply Z.ltb_ge. lia.
  - intros status json Hpost [Hlo Hhi]. rewrite Hpost.
    replace ((400 <=? status)%Z && (status <? 600)%Z) with true; [reflexivity|].
    symmetry. apply andb_true_iff. split; [apply Z.leb_le | apply Z.ltb_lt]; lia.
Qed.

End TranslationCall.

Section TranslatingRouterRuns.

Import KenAgent_Draft_workflow_Translation Scenario.

Lemma route_translates_around_arabic_witness :
  route nat Py.str tagging constant_answer (fun answer => answer)
        arabic_greeting 0%nat
  = (Py.Ok (VStr (Py.lit "Article 12")), 1%nat)
  /\ route nat Py.str tagging constant_answer (fun answer => answer) greeting
           0%nat
     = (Py.Ok (VStr (Py.lit "en:Article 12")), 3%nat).
Proof.
  split.
  - destruct (route_translates_around_arabic nat Py.str tagging constant_answer
                (fun answer => answer) arabic_greeting 0%nat) as [Harabic _].
    rewrite Harabic; [reflexivity|].
    exists 0x0645%N. split; [left; reflexivity | lia].
  - destruct (route_translates_around_arabic nat Py.str tagging constant_answer
                (fun answer => answer) greeting 0%nat) as [_ Hother].
    rewrite Hother; [reflexivity|].
    intros [c [Hin Hc]]. cbn in Hin. destruct Hin as [<- | [<- | []]]; lia.
Defined.

End TranslatingRouterRuns.

(** ** Language of a text made of parts *)

Section MixedLanguage.

Import Py.

(** X23.  One Arabic character anywhere decides: in both routers a text
    made of two parts is Arabic exactly when one of the parts is, whatever
    the other part holds, and its language does not depend on the order of
    the parts. *)
Theorem detect_language_of_parts (a b : str) :
  (KenAgent_Draft_workflow.detect_language (a ++ b) = lit "arabic"
   <-> KenAgent_Draft_workflow.detect_language a = lit "arabic"
       \/ KenAgent_Draft_workflow.detect_language b = lit "arabic")
  /\ (KenAgent_Draft_workflow_Translation.detect_language (a ++ b) = lit "ar"
      <-> KenAgent_Draft_workflow_Translation.detect_language a = lit "ar"
          \/ KenAgent_Draft_workflow_Translation.detect_language b = lit "ar")
  /\ KenAgent_Draft_workflow.detect_language (a ++ b)
     = KenAgent_Draft_workflow.detect_language (b ++ a)
  /\ KenAgent_Draft_workflow_Translation.detect_language (a ++ b)
     = KenAgent_Draft_workflow_Translation.detect_language (b ++ a).
Proof.
  unfold KenAgent_Draft_workflow.detect_language,
    KenAgent_Draft_workflow_Translation.detect_language, any.
  rewrite !existsb_app.
  destruct (existsb (between 1536%N 1791%N) a),
           (existsb (between 1536%N 1791%N) b); cbn [orb];
    repeat split; try reflexivity; try (intros _; auto; fail);
    try (intros [H | H]; discriminate H); try discriminate.
Qed.

End MixedLanguage.
